(** * bellt: a shallow embedding of the router in [bellt.go]

    The development follows the source file top to bottom: the pieces of Go's
    [strings], [regexp] and [net/http] packages the router calls, then the
    router's own types and functions under their Go names, then the
    properties of route registration, template matching, parameter binding,
    the method gate and middleware composition. *)

From Stdlib Require Import ZArith Ascii.
From stdpp Require Import gmap strings list fin_maps.

Local Open Scope nat_scope.

(* ===================================================================== *)
(** ** Go strings: byte sequences                                         *)
(* ===================================================================== *)

(** A Go [string] is a sequence of bytes, here a [string] of [ascii]
    characters.  Offsets are byte offsets, as in Go. *)

Definition slice (s : string) (lo hi : nat) : string :=
  String.substring lo (hi - lo) s.

(** All non-overlapping occurrences of a literal [pat] in the text, leftmost
    first, as half-open offset pairs.  [pos] is the offset of the head of the
    text still to scan, [skip] the number of bytes of it covered by the
    occurrence found last.  The empty literal occurs once at every offset. *)
Fixpoint literal_scan (pat : string) (pos skip : nat) (s : string)
  : list (nat * nat) :=
  match s with
  | EmptyString =>
      match pat, skip with
      | EmptyString, 0 => [(pos, pos)]
      | _, _ => []
      end
  | String _ s' =>
      match skip with
      | S k => literal_scan pat (S pos) k s'
      | 0 =>
          if String.prefix pat s
          then (pos, pos + String.length pat)
                 :: literal_scan pat (S pos) (String.length pat - 1) s'
          else literal_scan pat (S pos) 0 s'
      end
  end.

(** The pieces of [s] around a list of occurrences. *)
Fixpoint pieces (s : string) (occ : list (nat * nat)) (beg : nat)
  : list string :=
  match occ with
  | [] => [slice s beg (String.length s)]
  | (a, b) :: occ' => slice s beg a :: pieces s occ' b
  end.

Fixpoint explode (s : string) : list string :=
  match s with
  | EmptyString => []
  | String c s' => String c EmptyString :: explode s'
  end.

Module gostrings.

(** [strings.Split(s, sep)]: the substrings between the occurrences of
    [sep]; an empty [sep] splits after each character. *)
Definition Split (s sep : string) : list string :=
  match sep with
  | EmptyString => explode s
  | _ => pieces s (literal_scan sep 0 0 s) 0
  end.

(** [strings.Replace(s, old, new, -1)]: every non-overlapping occurrence of
    [old] replaced by [new]. *)
Definition Replace (s old new : string) : string :=
  String.concat new (pieces s (literal_scan old 0 0 s) 0).

Global Arguments Split : simpl never.
Global Arguments Replace : simpl never.

End gostrings.

(* ===================================================================== *)
(** ** Go regexp                                                           *)
(* ===================================================================== *)

Module regexp.

(** A compiled expression: its source text and its match enumeration.
    [FindAllStringSubmatchIndex] lists, for each successive match in the
    text, the offsets of the whole match and of its capture groups. *)
Record Regexp := {
  expr : string;
  FindAllStringSubmatchIndex : string → list ((nat * nat) * list (nat * nat))
}.

Definition FindAllStringIndex (re : Regexp) (s : string) : list (nat * nat) :=
  (FindAllStringSubmatchIndex re s).*1.

(** [re.FindString(s)]: the text of the leftmost match, the empty string
    when there is none (or when the leftmost match is empty). *)
Definition FindString (re : Regexp) (s : string) : string :=
  match FindAllStringIndex re s with
  | [] => ""
  | (a, b) :: _ => slice s a b
  end.

(** [re.FindAllStringSubmatch(s, -1)]: per match, the matched text
    followed by the text of each group; [nil] when nothing matches. *)
Definition FindAllStringSubmatch (re : Regexp) (s : string)
  : list (list string) :=
  (λ m, slice s m.1.1 m.1.2 :: ((λ g, slice s g.1 g.2) <$> m.2))
    <$> FindAllStringSubmatchIndex re s.

(** The loop of [re.Split(s, -1)] over the matches: [beg] is the end of
    the previous match, [fin] the start of the last match seen. *)
Fixpoint Split_loop (s : string) (matches : list (nat * nat))
         (beg fin : nat) (strs : list string) : list string :=
  match matches with
  | [] =>
      if fin =? String.length s then strs
      else strs ++ [slice s beg (String.length s)]
  | (m0, m1) :: matches' =>
      Split_loop s matches' m1 m0
        (if m1 =? 0 then strs else strs ++ [slice s beg m0])
  end.

Definition Split (re : Regexp) (s : string) : list string :=
  if (0 <? String.length (expr re)) && (String.length s =? 0) then [""]
  else Split_loop s (FindAllStringIndex re s) 0 0 [].

(** [re.ReplaceAllString(src, repl)] for a replacement text without [$]
    references. *)
Fixpoint ReplaceAll_loop (src repl : string) (matches : list (nat * nat))
         (lastMatchEnd : nat) (buf : string) : string :=
  match matches with
  | [] => buf +:+ slice src lastMatchEnd (String.length src)
  | (a0, a1) :: matches' =>
      let buf := buf +:+ slice src lastMatchEnd a0 in
      let buf := if (lastMatchEnd <? a1) || (a0 =? 0)
                 then buf +:+ repl else buf in
      ReplaceAll_loop src repl matches' a1 buf
  end.

Definition ReplaceAllString (re : Regexp) (src repl : string) : string :=
  ReplaceAll_loop src repl (FindAllStringIndex re src) 0 "".

(** [\w] is the ASCII class [[0-9A-Za-z_]]. *)
Definition is_word (c : ascii) : bool :=
  let n := nat_of_ascii c in
  ((48 <=? n) && (n <=? 57)) || ((65 <=? n) && (n <=? 90))
  || (n =? 95) || ((97 <=? n) && (n <=? 122)).

Fixpoint word_run (s : string) : nat :=
  match s with
  | String c s' => if is_word c then S (word_run s') else 0
  | EmptyString => 0
  end.

(** Length of a match of the marker expression (an opening brace, word
    characters, a closing brace) at the head of [s].  The greedy run of
    word characters is the only candidate: a shorter run is followed by a
    word character, never by the closing brace. *)
Definition marker_at (s : string) : option nat :=
  match s with
  | String "{"%char r =>
      let n := word_run r in
      match String.get n r with
      | Some "}"%char => Some (n + 2)
      | _ => None
      end
  | _ => None
  end.

Fixpoint marker_scan (pos skip : nat) (s : string)
  : list ((nat * nat) * list (nat * nat)) :=
  match s with
  | EmptyString => []
  | String _ s' =>
      match skip with
      | S k => marker_scan (S pos) k s'
      | 0 =>
          match marker_at s with
          | Some len =>
              ((pos, pos + len), [(S pos, pos + len - 1)])
                :: marker_scan (S pos) (len - 1) s'
          | None => marker_scan (S pos) 0 s'
          end
      end
  end.

(** [(?m)(^\/)]: a slash at the start of the text or right after a line
    feed.  [bol] tells whether the head of [s] begins a line. *)
Fixpoint start_scan (pos : nat) (bol : bool) (s : string)
  : list ((nat * nat) * list (nat * nat)) :=
  match s with
  | EmptyString => []
  | String c s' =>
      let rest := start_scan (S pos) (Ascii.eqb c "010"%char) s' in
      if bol && Ascii.eqb c "/"%char
      then ((pos, S pos), [(pos, S pos)]) :: rest
      else rest
  end.

(** [(?m)(\/$)]: a slash at the end of the text or right before a line
    feed. *)
Fixpoint end_scan (pos : nat) (s : string)
  : list ((nat * nat) * list (nat * nat)) :=
  match s with
  | EmptyString => []
  | String c s' =>
      let eol := match s' with
                 | EmptyString => true
                 | String d _ => Ascii.eqb d "010"%char
                 end in
      if Ascii.eqb c "/"%char && eol
      then ((pos, S pos), [(pos, S pos)]) :: end_scan (S pos) s'
      else end_scan (S pos) s'
  end.

(** An expression without metacharacters matches its own text: the
    compiled form of such a pattern, with no capture group. *)
Definition literal (pat : string) : Regexp :=
  {| expr := pat;
     FindAllStringSubmatchIndex s := (λ m, (m, [])) <$> literal_scan pat 0 0 s |}.

End regexp.

(* ===================================================================== *)
(** ** context and net/http                                               *)
(* ===================================================================== *)

Module context.

(** The chain of [context.WithValue] nodes whose keys have the package's
    [key] type, most recent first.  Keys of other types never compare
    equal to a [key], so they are left out. *)
Definition Context := list (string * string).

Definition WithValue (ctx : Context) (k v : string) : Context :=
  (k, v) :: ctx.

(** [ctx.Value(k)]: the most recent binding of [k], [nil] without one. *)
Fixpoint Value (ctx : Context) (k : string) : option string :=
  match ctx with
  | [] => None
  | (k', v) :: parent => if String.eqb k k' then Some v else Value parent k
  end.

End context.

Module http.

Record Request := {
  Method : string;
  URL_Path : string;
  Context : context.Context
}.

Definition WithContext (r : Request) (ctx : context.Context) : Request :=
  {| Method := Method r; URL_Path := URL_Path r; Context := ctx |}.

(** What a handler has written so far: the header map, the status line
    once it is written, the body. *)
Record ResponseWriter := {
  Header : gmap string string;
  Status : option nat;
  Body : string
}.

Definition NewRecorder : ResponseWriter :=
  {| Header := ∅; Status := None; Body := "" |}.

Definition Header_Set (w : ResponseWriter) (k v : string) : ResponseWriter :=
  {| Header := <[k := v]> (Header w); Status := Status w; Body := Body w |}.

(** Only the first [WriteHeader] counts. *)
Definition WriteHeader (w : ResponseWriter) (code : nat) : ResponseWriter :=
  match Status w with
  | Some _ => w
  | None => {| Header := Header w; Status := Some code; Body := Body w |}
  end.

(** [Write] sends the status 200 first when none was written. *)
Definition Write (w : ResponseWriter) (b : string) : ResponseWriter :=
  let w := WriteHeader w 200 in
  {| Header := Header w; Status := Status w; Body := Body w +:+ b |}.

Definition StatusOK : nat := 200.
Definition StatusNotFound : nat := 404.

(** Handlers of the application are functions of the response written so
    far and the request. *)
Definition HandlerFunc := ResponseWriter → Request → ResponseWriter.

End http.

(** The double quote, for the JSON payloads. *)
Definition dq : string := String "034"%char EmptyString.

(* ===================================================================== *)
(** ** The router's data                                                   *)
(* ===================================================================== *)

Definition methods : list string := ["GET"; "POST"; "PUT"; "DELETE"].

Module Variable_.
Record t := { Name : string; Value : string }.
End Variable_.

Module Route.
Record t := {
  Path : string;
  Handler : http.HandlerFunc;
  Params : list Variable_.t
}.
End Route.

Module SubHandle.
Record t := {
  Path : string;
  Handler : http.HandlerFunc;
  Methods : list string
}.
End SubHandle.

Module BuiltRoute.
Record t := {
  TempPath : string;
  Handler : http.HandlerFunc;
  Var : gmap nat Variable_.t;
  KeyRoute : string;
  Methods : list string
}.

Definition with_Var (b : t) (v : gmap nat Variable_.t) : t :=
  {| TempPath := TempPath b; Handler := Handler b; Var := v;
     KeyRoute := KeyRoute b; Methods := Methods b |}.
End BuiltRoute.

Record Router := {
  routes : list Route.t;
  built : list BuiltRoute.t
}.

Record ParamReceiver := { request : http.Request }.

Abbreviation Middleware := (http.HandlerFunc → http.HandlerFunc).

(** What [http.DefaultServeMux] holds for a pattern: a handler of the
    application, or the router's own catch-all [redirectBuiltRoute], which
    works on the router and is run by [redirectBuiltRoute] below. *)
Inductive muxEntry :=
| Serve (h : http.HandlerFunc)
| Redirect.

(** The process state the package works on: the singleton [mainRouter] and
    the patterns registered on the default mux, in registration order. *)
Record World := {
  mainRouter : Router;
  DefaultServeMux : list (string * muxEntry)
}.

Definition set_routes (σ : World) (rs : list Route.t) : World :=
  {| mainRouter := {| routes := rs; built := built (mainRouter σ) |};
     DefaultServeMux := DefaultServeMux σ |}.

Definition set_built (σ : World) (bs : list BuiltRoute.t) : World :=
  {| mainRouter := {| routes := routes (mainRouter σ); built := bs |};
     DefaultServeMux := DefaultServeMux σ |}.

Definition set_mux (σ : World) (mux : list (string * muxEntry)) : World :=
  {| mainRouter := mainRouter σ; DefaultServeMux := mux |}.

(** ** Computations on the world that may panic

    A panic leaves the world as it was when it was raised: nothing is
    rolled back. *)

Inductive outcome (A : Type) :=
| Done (a : A)
| Panic (msg : string).
Arguments Done {A} a.
Arguments Panic {A} msg.

Definition M (A : Type) : Type := World → outcome A * World.

Definition ret {A} (a : A) : M A := λ σ, (Done a, σ).

Definition bind {A B} (m : M A) (k : A → M B) : M B :=
  λ σ, match m σ with
       | (Done a, σ') => k a σ'
       | (Panic msg, σ') => (Panic msg, σ')
       end.

Definition panic {A} (msg : string) : M A := λ σ, (Panic msg, σ).
Definition get : M World := λ σ, (Done σ, σ).
Definition put (σ : World) : M unit := λ _, (Done tt, σ).

Notation "'let*' x := m 'in' k" := (bind m (λ x, k))
  (at level 10, x pattern, m at level 100, k at level 200).

(** A range loop over a Go map visits the entries in an order the language
    leaves open.  A [Range] fixes one order per map; [valid_range] says it
    enumerates exactly the entries. *)
Definition Range := gmap nat Variable_.t → list (nat * Variable_.t).

Definition valid_range (rg : Range) : Prop :=
  ∀ m, rg m ≡ₚ map_to_list m.

(* ===================================================================== *)
(** ** The router's functions                                              *)
(* ===================================================================== *)

(** The state [NewRouter] sets up on its first call: the empty router, with
    the health route and the catch-all on the default mux. *)
Definition healthApplication : http.HandlerFunc := λ w r,
  let w := http.Header_Set w "Content-Type" "application/json" in
  let w := http.WriteHeader w http.StatusOK in
  http.Write w
    ("{" +:+ dq +:+ "alive" +:+ dq +:+ ": " +:+ dq +:+ "Server running"
         +:+ dq +:+ "}").

Definition NewRouter : World :=
  {| mainRouter := {| routes := []; built := [] |};
     DefaultServeMux := [("/health", Serve healthApplication); ("/", Redirect)] |}.

(** [Use]: the loop runs [x] from [len(middleware)-1] down to [0]; the
    counter here is [x+1]. *)
Fixpoint Use_loop (middleware : list Middleware) (x : nat)
         (handler : http.HandlerFunc) : http.HandlerFunc :=
  match x with
  | 0 => handler
  | S x' =>
      match middleware !! x' with
      | Some mid => Use_loop middleware x' (mid handler)
      | None => handler
      end
  end.

Definition Use (handler : http.HandlerFunc) (middleware : list Middleware)
  : http.HandlerFunc :=
  Use_loop middleware (length middleware) handler.

Fixpoint checkMethod_loop (m : string) (ms : list string) : bool :=
  match ms with
  | [] => false
  | method :: ms' => if String.eqb m method then true else checkMethod_loop m ms'
  end.

Definition checkMethod (m : string) : bool := checkMethod_loop m methods.

Definition method_rejected : string :=
  "{" +:+ dq +:+ "error" +:+ dq +:+ ": " +:+ dq
      +:+ "The method for this route doesnt exist" +:+ dq +:+ "}".

Definition route_not_found : string :=
  "{" +:+ dq +:+ "msg" +:+ dq +:+ ": " +:+ dq +:+ "route not found"
      +:+ dq +:+ "}".

Fixpoint gateMethod_loop (next : http.HandlerFunc) (ms : list string)
         (w : http.ResponseWriter) (r : http.Request) : http.ResponseWriter :=
  match ms with
  | [] =>
      let w := http.WriteHeader w http.StatusNotFound in
      http.Write w method_rejected
  | method :: ms' =>
      if String.eqb (http.Method r) method then next w r
      else gateMethod_loop next ms' w r
  end.

Definition gateMethod (next : http.HandlerFunc) (ms : list string)
  : http.HandlerFunc :=
  λ w r, gateMethod_loop next ms w r.

Definition setRouteParams (next : http.HandlerFunc)
           (params : list Variable_.t) : http.HandlerFunc :=
  λ w r,
    let ctx :=
      foldl (λ ctx param,
               context.WithValue ctx (Variable_.Name param)
                                 (Variable_.Value param))
            (http.Context r) params in
    next w (http.WithContext r ctx).

Definition RouteVariables (r : http.Request) : ParamReceiver :=
  {| request := r |}.

(** [GetVar] returns an [interface{}]: the stored string, or [nil]. *)
Definition GetVar (pr : ParamReceiver) (variable : string) : option string :=
  context.Value (http.Context (request pr)) variable.

(** The three expressions of [getBuiltRouteParams]. *)
Definition rgx : regexp.Regexp :=
  {| regexp.expr := "(?m){(\w*)}";
     regexp.FindAllStringSubmatchIndex := regexp.marker_scan 0 0 |}.

Definition rgxStart : regexp.Regexp :=
  {| regexp.expr := "(?m)(^\/)";
     regexp.FindAllStringSubmatchIndex := regexp.start_scan 0 true |}.

Definition rgxEnd : regexp.Regexp :=
  {| regexp.expr := "(?m)(\/$)";
     regexp.FindAllStringSubmatchIndex := regexp.end_scan 0 |}.

(** Element [0] of the split always exists (see [Split_rgx_head]). *)
Definition getBuiltRouteParams (path : string) : string * list (list string) :=
  (regexp.ReplaceAllString rgxEnd
     (regexp.ReplaceAllString rgxStart
        (default "" (regexp.Split rgx path !! 0)) "") "",
   regexp.FindAllStringSubmatch rgx path).

(** [http.HandleFunc] on the default mux: panics on the empty pattern and
    on a pattern registered before. *)
Definition http_Handle (pattern : string) (h : muxEntry) : M unit := λ σ,
  if String.eqb pattern "" then (Panic "http: invalid pattern", σ)
  else if existsb (String.eqb pattern) (DefaultServeMux σ).*1
  then (Panic ("http: multiple registrations for " +:+ pattern), σ)
  else (Done tt, set_mux σ (DefaultServeMux σ ++ [(pattern, h)])).

Definition http_HandleFunc (pattern : string) (h : http.HandlerFunc) : M unit :=
  http_Handle pattern (Serve h).

(** The first loop of the [methods] method of [Route]: [err] ends as the
    error of the last disallowed method, [nil] when all are allowed. *)
Definition methods_err (path : string) (ms : list string) : option string :=
  foldl (λ err method,
           if negb (checkMethod method)
           then Some ("Method " +:+ method +:+ " on " +:+ path
                                +:+ " not allowed")
           else err)
        None ms.

(** The [methods] method of [Route]: without an error the route goes on
    the mux behind its method gate; the error is returned. *)
Definition Route_methods (r : Route.t) (ms : list string) : M (option string) :=
  match methods_err (Route.Path r) ms with
  | None =>
      let* _ :=
        (if 0 <? length (Route.Params r)
         then http_HandleFunc (Route.Path r)
                (setRouteParams (gateMethod (Route.Handler r) ms)
                                (Route.Params r))
         else http_HandleFunc (Route.Path r)
                (gateMethod (Route.Handler r) ms)) in
      ret None
  | Some e => ret (Some e)
  end.

(** [valuesList[idx] = Variable{Name: name[1], Value: ""}] for each match;
    every match of [rgx] has the group at index 1. *)
Fixpoint valuesList_loop (idx : nat) (values : list (list string))
         (valuesList : gmap nat Variable_.t) : gmap nat Variable_.t :=
  match values with
  | [] => valuesList
  | name :: values' =>
      valuesList_loop (S idx) values'
        (<[idx := {| Variable_.Name := default "" (name !! 1);
                     Variable_.Value := "" |}]> valuesList)
  end.

(** The [BuiltRoute] that [HandleFunc] makes of a path with markers. *)
Definition new_template (path : string) (handleFunc : http.HandlerFunc)
           (ms : list string) : BuiltRoute.t :=
  let '(key, values) := getBuiltRouteParams path in
  {| BuiltRoute.TempPath := path;
     BuiltRoute.Handler := handleFunc;
     BuiltRoute.Var := valuesList_loop 0 values ∅;
     BuiltRoute.KeyRoute := key;
     BuiltRoute.Methods := ms |}.

Definition HandleFunc (path : string) (handleFunc : http.HandlerFunc)
           (ms : list string) : M unit :=
  let '(key, values) := getBuiltRouteParams path in
  match values with
  | _ :: _ =>
      let builtRoute := new_template path handleFunc ms in
      let* σ := get in
      put (set_built σ (built (mainRouter σ) ++ [builtRoute]))
  | [] =>
      let route :=
        {| Route.Path := path; Route.Handler := handleFunc;
           Route.Params := [] |} in
      let* err := Route_methods route ms in
      match err with
      | None =>
          let* σ := get in
          put (set_routes σ (routes (mainRouter σ) ++ [route]))
      | Some _ => ret tt
      end
  end.

Fixpoint HandleGroup (mainPath : string) (sr : list SubHandle.t) : M unit :=
  match sr with
  | [] => ret tt
  | route :: sr' =>
      let* _ := HandleFunc (mainPath +:+ SubHandle.Path route)
                           (SubHandle.Handler route)
                           (SubHandle.Methods route) in
      HandleGroup mainPath sr'
  end.

Definition SubHandleFunc (path : string) (handleFunc : http.HandlerFunc)
           (ms : list string) : SubHandle.t :=
  {| SubHandle.Handler := handleFunc; SubHandle.Path := path;
     SubHandle.Methods := ms |}.

Definition routeBuilder (path : string) (handleFunc : http.HandlerFunc)
           (params : list Variable_.t) : M Route.t :=
  let route :=
    {| Route.Handler := handleFunc; Route.Path := path;
       Route.Params := params |} in
  let* σ := get in
  let* _ := put (set_routes σ (routes (mainRouter σ) ++ [route])) in
  ret route.

(** The range loop of [createBuiltRoute] over [params], in the order [rg]:
    the path with the markers replaced so far, and the variables visited. *)
Definition createBuiltRoute_loop (rg : Range) (path : string)
           (params : gmap nat Variable_.t) : string * list Variable_.t :=
  foldl (λ '(builtPath, allParams) '(_, param),
           (gostrings.Replace builtPath
              ("{" +:+ Variable_.Name param +:+ "}")
              (Variable_.Value param),
            allParams ++ [param]))
        (path, []) (rg params).

Definition createBuiltRoute (rg : Range) (path : string)
           (handler : http.HandlerFunc) (ms : list string)
           (params : gmap nat Variable_.t) : M unit :=
  let '(builtPath, allParams) := createBuiltRoute_loop rg path params in
  let* route := routeBuilder builtPath handler allParams in
  let* _ := Route_methods route ms in
  ret tt.

(** ** Matching a request path against the templates

    [KeyRoute] is compiled as a regular expression on every request.  The
    matcher is stated over the compiler: [MustCompile pat] is the compiled
    expression, [None] when [regexp.MustCompile] panics on [pat]. *)

Section Matching.

Variable MustCompile : string → option regexp.Regexp.

(** [params[idx-1] = val] for every element of the split but the first. *)
Fixpoint params_loop (idx : nat) (segs : list string)
         (params : gmap nat string) : gmap nat string :=
  match segs with
  | [] => params
  | val :: segs' =>
      params_loop (S idx) segs'
        (if idx =? 0 then params else <[idx - 1 := val]> params)
  end.

(** The loop of [getRequestParams] over [router.built].  A template is a
    pointer in the source; here it is its index in [built] together with
    the record it points to.  [params] is one map for the whole loop. *)
Fixpoint getRequestParams_loop (path : string) (idx : nat)
         (rs : list BuiltRoute.t)
         (builtRouteList : option (nat * BuiltRoute.t))
         (params : gmap nat string)
  : outcome (option (nat * BuiltRoute.t) * gmap nat string) :=
  match rs with
  | [] => Done (builtRouteList, params)
  | route :: rs' =>
      match MustCompile (BuiltRoute.KeyRoute route) with
      | None => Panic "regexp: Compile: error parsing regexp"
      | Some re =>
          if negb (String.eqb (regexp.FindString re path) "") then
            match regexp.Split re path !! 1 with
            | None => Panic "runtime error: index out of range"
            | Some rest =>
                let segs := gostrings.Split rest "/" in
                if (Z.of_nat (length segs) - 1
                    =? Z.of_nat (size (BuiltRoute.Var route)))%Z
                then getRequestParams_loop path (S idx) rs'
                       (Some (idx, route)) (params_loop 0 segs params)
                else getRequestParams_loop path (S idx) rs'
                       builtRouteList params
            end
          else getRequestParams_loop path (S idx) rs' builtRouteList params
      end
  end.

Definition getRequestParams (path : string)
  : M (option (nat * BuiltRoute.t) * gmap nat string) := λ σ,
  match getRequestParams_loop path 0 (built (mainRouter σ)) None ∅ with
  | Done res => (Done res, σ)
  | Panic msg => (Panic msg, σ)
  end.

(** The first range loop of [redirectBuiltRoute]: every entry of the
    selected template's [Var] keeps its name and takes [params[idx]] (the
    empty string without one) as its value.  Each key is visited once, so
    the order of the visit does not show. *)
Definition bind_values (var : gmap nat Variable_.t)
           (params : gmap nat string) : gmap nat Variable_.t :=
  map_imap (λ idx varParam,
              Some {| Variable_.Name := Variable_.Name varParam;
                      Variable_.Value := default "" (params !! idx) |})
           var.

(** [redirectBuiltRoute]: [rg1] and [rg2] are the orders of its second
    range loop and of the loop in [createBuiltRoute].  The template's
    [Var] is a map shared with the router, so the new values stay in
    [built]. *)
Definition redirectBuiltRoute (rg1 rg2 : Range)
           (w : http.ResponseWriter) (r : http.Request)
  : M http.ResponseWriter :=
  let* (selectedBuilt, params) := getRequestParams (http.URL_Path r) in
  match selectedBuilt with
  | Some (i, selected) =>
      let var := bind_values (BuiltRoute.Var selected) params in
      let* σ := get in
      let* _ := put (set_built σ
                       (<[i := BuiltRoute.with_Var selected var]>
                          (built (mainRouter σ)))) in
      let allParams := (rg1 var).*2 in
      let* _ := createBuiltRoute rg2 (BuiltRoute.TempPath selected)
                  (BuiltRoute.Handler selected)
                  (BuiltRoute.Methods selected) var in
      ret (setRouteParams
             (gateMethod (BuiltRoute.Handler selected)
                         (BuiltRoute.Methods selected))
             allParams w r)
  | None =>
      let w := http.Header_Set w "Content-Type" "application/json" in
      let w := http.WriteHeader w http.StatusNotFound in
      ret (http.Write w route_not_found)
  end.

(** What the loop of [getRequestParams] decides for one template: a
    panic, no match, or a match with the segments of the split. *)
Definition route_check (path : string) (route : BuiltRoute.t)
  : outcome (option (list string)) :=
  match MustCompile (BuiltRoute.KeyRoute route) with
  | None => Panic "regexp: Compile: error parsing regexp"
  | Some re =>
      if negb (String.eqb (regexp.FindString re path) "") then
        match regexp.Split re path !! 1 with
        | None => Panic "runtime error: index out of range"
        | Some rest =>
            let segs := gostrings.Split rest "/" in
            if (Z.of_nat (length segs) - 1
                =? Z.of_nat (size (BuiltRoute.Var route)))%Z
            then Done (Some segs) else Done None
        end
      else Done None
  end.

(** The template structurally matches the path. *)
Definition matches (path : string) (route : BuiltRoute.t) : bool :=
  match route_check path route with
  | Done (Some _) => true
  | _ => false
  end.

(** The check of the template against the path does not panic. *)
Definition checks (path : string) (route : BuiltRoute.t) : bool :=
  match route_check path route with
  | Done _ => true
  | Panic _ => false
  end.

(** The templates of a list with their indices in [built], the list
    starting at index [idx]. *)
Definition indexed (idx : nat) (rs : list BuiltRoute.t)
  : list (nat * BuiltRoute.t) :=
  imap (λ i route, (idx + i, route)) rs.

(** The last template of the list that matches, with its index. *)
Definition last_match (path : string) (rs : list BuiltRoute.t)
  : option (nat * BuiltRoute.t) :=
  last (filter (λ ir, matches path ir.2) (indexed 0 rs)).

(** The first one. *)
Definition first_match (path : string) (rs : list BuiltRoute.t)
  : option (nat * BuiltRoute.t) :=
  head (filter (λ ir, matches path ir.2) (indexed 0 rs)).

(** The last match among the templates from index [idx] on, [sel]
    without one. *)
Definition later_match (path : string) (idx : nat)
           (rs : list BuiltRoute.t) (sel : option (nat * BuiltRoute.t))
  : option (nat * BuiltRoute.t) :=
  match last (filter (λ ir, matches path ir.2) (indexed idx rs)) with
  | Some ir => Some ir
  | None => sel
  end.

End Matching.

(** [http.HandleFunc] takes the pattern: it is not empty and not on the mux
    yet. *)
Definition mux_accepts (σ : World) (pattern : string) : bool :=
  negb (String.eqb pattern "")
  && negb (existsb (String.eqb pattern) (DefaultServeMux σ).*1).

(** The response of [redirectBuiltRoute] when no template is selected. *)
Definition not_found (w : http.ResponseWriter) : http.ResponseWriter :=
  http.Write
    (http.WriteHeader
       (http.Header_Set w "Content-Type" "application/json")
       http.StatusNotFound)
    route_not_found.

(** Index and template path of the selection of [getRequestParams]. *)
Definition selected_template {A}
           (res : outcome (option (nat * BuiltRoute.t) * A) * World)
  : option (nat * string) :=
  match res.1 with
  | Done (Some (i, route), _) => Some (i, BuiltRoute.TempPath route)
  | _ => None
  end.

(** The compiler on patterns without metacharacters. *)
Definition literal_compile (pat : string) : option regexp.Regexp :=
  Some (regexp.literal pat).

(** The range order used in the examples. *)
Definition key_order : Range := map_to_list.

(** ** Sample handlers, requests and states *)

Definition new_request (method path : string) : http.Request :=
  {| http.Method := method; http.URL_Path := path; http.Context := [] |}.

(** A handler that writes the value of the variable [name]. *)
Definition show_var (name : string) : http.HandlerFunc := λ w r,
  http.Write w (default "<nil>" (GetVar (RouteVariables r) name)).

Definition say (text : string) : http.HandlerFunc := λ w _, http.Write w text.

(** A middleware that writes [pre] before the next handler and [post]
    after it. *)
Definition around (pre post : string) : Middleware := λ next w r,
  http.Write (next (http.Write w pre) r) post.

Definition registered (path : string) (h : http.HandlerFunc)
           (ms : list string) (σ : World) : World :=
  (HandleFunc path h ms σ).2.

Definition users_router : World :=
  registered "/users/{id}" (show_var "id") ["GET"] NewRouter.

Definition two_templates : World :=
  registered "/users/{name}" (show_var "name") ["GET"] users_router.

Definition patch_router : World :=
  registered "/users/{id}" (show_var "id") ["PATCH"] NewRouter.

Definition root_variable_router : World :=
  registered "/{id}" (show_var "id") ["GET"] NewRouter.

Definition resolve (method path : string) (σ : World)
  : outcome http.ResponseWriter * World :=
  redirectBuiltRoute literal_compile key_order key_order http.NewRecorder
                     (new_request method path) σ.

Definition paths (σ : World) : list string :=
  Route.Path <$> routes (mainRouter σ).

Definition summary (res : outcome http.ResponseWriter * World) :=
  (match res.1 with
   | Done w => Some (http.Status w, http.Body w)
   | Panic _ => None
   end, paths res.2, (DefaultServeMux res.2).*1).

(* ===================================================================== *)
(** ** The singleton                                                       *)
(* ===================================================================== *)

(** The package variables as a call of [NewRouter] finds them:
    [mainRouter], nil before the first call, and the default mux. *)
Record Package := {
  instance : option Router;
  ServeMux : list (string * muxEntry)
}.

(** [NewRouter]: a nil [mainRouter] makes it register the health route and
    the catch-all, in this order, and then set [mainRouter] to an empty
    router; a panic of [http.HandleFunc] leaves [mainRouter] nil and the mux
    with what was registered before it.  The router is returned. *)
Definition NewRouter_call (π : Package) : outcome Router * Package :=
  match instance π with
  | Some router => (Done router, π)
  | None =>
      let σ0 := {| mainRouter := {| routes := []; built := [] |};
                   DefaultServeMux := ServeMux π |} in
      match (let* _ := http_HandleFunc "/health" healthApplication in
             http_Handle "/" Redirect) σ0 with
      | (Done _, σ) =>
          (Done (mainRouter σ),
           {| instance := Some (mainRouter σ);
              ServeMux := DefaultServeMux σ |})
      | (Panic msg, σ) =>
          (Panic msg, {| instance := None; ServeMux := DefaultServeMux σ |})
      end
  end.

(** The world a package with a router stands for. *)
Definition world_of (router : Router) (π : Package) : World :=
  {| mainRouter := router; DefaultServeMux := ServeMux π |}.

(** The value the binder gives a name: that of the last parameter of the
    list with this name. *)
Definition last_bound (name : string) (params : list Variable_.t)
  : option string :=
  Variable_.Value
    <$> last (filter (λ param, Variable_.Name param = name) params).

(** The text is made of word characters only. *)
Fixpoint all_word (s : string) : bool :=
  match s with
  | EmptyString => true
  | String c s' => regexp.is_word c && all_word s'
  end.

(** The texts of a match of the marker expression in [whole]: a name of
    word characters in braces, and the name. *)
Definition well_formed_match (whole : string)
           (m : (nat * nat) * list (nat * nat)) : Prop :=
  ∃ name,
    all_word name = true
    ∧ slice whole m.1.1 m.1.2 :: ((λ g, slice whole g.1 g.2) <$> m.2)
      = ["{" +:+ name +:+ "}"; name].

(** Two templates that differ at most in the values of their variables. *)
Definition same_shape (a b : BuiltRoute.t) : Prop :=
  BuiltRoute.TempPath a = BuiltRoute.TempPath b
  ∧ BuiltRoute.Handler a = BuiltRoute.Handler b
  ∧ BuiltRoute.KeyRoute a = BuiltRoute.KeyRoute b
  ∧ BuiltRoute.Methods a = BuiltRoute.Methods b
  ∧ Variable_.Name <$> BuiltRoute.Var a = Variable_.Name <$> BuiltRoute.Var b.

(** The users' template with a second one whose key has an unclosed
    group. *)
Definition unclosed_router : World :=
  registered "/a(/{id}" (show_var "id") ["GET"] users_router.

(** A range order other than [key_order]: the entries in reverse. *)
Definition reverse_order : Range := λ m, reverse (map_to_list m).

Fixpoint has_char (c : ascii) (s : string) : bool :=
  match s with
  | EmptyString => false
  | String d s' => Ascii.eqb c d || has_char c s'
  end.

(** A compiler for the examples with a key that does not compile: a
    pattern with an opening parenthesis and no closing one, no backslash
    and no bracket is rejected, as [regexp.MustCompile] rejects it
    (missing closing parenthesis); other patterns are taken literally. *)
Definition group_compile (pat : string) : option regexp.Regexp :=
  if has_char "("%char pat
     && negb (has_char ")"%char pat || has_char "\"%char pat
              || has_char "["%char pat)
  then None
  else Some (regexp.literal pat).

(* ===================================================================== *)
(** ** Examples of the library models                                      *)
(* ===================================================================== *)

Example split_users : gostrings.Split "/42/extra" "/" = [""; "42"; "extra"].
Proof. reflexivity. Qed.

Example replace_users :
  gostrings.Replace "/users/{id}/x/{id}" "{id}" "42" = "/users/42/x/42".
Proof. reflexivity. Qed.

Example literal_split :
  regexp.Split (regexp.literal "users") "/users/42/extra" = ["/"; "/42/extra"].
Proof. reflexivity. Qed.

Example empty_find : regexp.FindString (regexp.literal "") "/42" = "".
Proof. reflexivity. Qed.

(* ===================================================================== *)
(** ** The template parser                                                 *)
(* ===================================================================== *)

(** No match of the marker expression ends at offset 0. *)
Lemma marker_scan_ends s : ∀ pos skip,
  Forall (λ m, m.1.2 ≠ 0) (regexp.marker_scan pos skip s).
Proof.
  induction s as [|c s IH]; intros pos skip; cbn [regexp.marker_scan];
    [constructor|].
  destruct skip as [|k]; [|apply IH].
  destruct (regexp.marker_at (String c s)) as [len|] eqn:Hat; [|apply IH].
  constructor; [|apply IH]. cbn. unfold regexp.marker_at in Hat.
  destruct (Ascii.eqb_spec c "{"%char) as [->|Hc]; cycle 1.
  { by destruct c as [[] [] [] [] [] [] [] []]. }
  destruct (String.get _ s) as [d|]; [|done].
  destruct (Ascii.eqb_spec d "}"%char) as [->|Hd]; cycle 1.
  { by destruct d as [[] [] [] [] [] [] [] []]. }
  simplify_eq. lia.
Qed.

Lemma Split_loop_keeps s matches : ∀ beg fin strs,
  strs ≠ [] → regexp.Split_loop s matches beg fin strs ≠ [].
Proof.
  induction matches as [|[m0 m1] matches IH]; intros beg fin strs Hstrs;
    cbn [regexp.Split_loop].
  - destruct (fin =? String.length s); [done|]. by destruct strs.
  - apply IH. destruct (m1 =? 0); [done|]. by destruct strs.
Qed.

(** The split of a path on the markers has a first element, so the index
    expression [Split(path, -1)[0]] of [getBuiltRouteParams] is in range. *)
Lemma Split_rgx_head path : is_Some (regexp.Split rgx path !! 0).
Proof.
  apply lookup_lt_is_Some_2.
  assert (regexp.Split rgx path ≠ []) as Hne; [|destruct (regexp.Split _ _);
    [done|cbn; lia]].
  unfold regexp.Split. destruct path as [|c path]; [done|].
  cbn [String.length Nat.eqb andb].
  rewrite andb_false_r.
  unfold regexp.FindAllStringIndex.
  pose proof (marker_scan_ends (String c path) 0 0) as Hends.
  change (regexp.FindAllStringSubmatchIndex rgx (String c path))
    with (regexp.marker_scan 0 0 (String c path)).
  destruct (regexp.marker_scan 0 0 (String c path)) as [|[[m0 m1] gs] ms].
  - done.
  - cbn [fmap list_fmap fst regexp.Split_loop].
    apply Forall_cons_1 in Hends as [Hm1 _]. cbn in Hm1.
    apply Nat.eqb_neq in Hm1. rewrite Hm1. by apply Split_loop_keeps.
Qed.

(* ===================================================================== *)
(** ** Middleware composition                                              *)
(* ===================================================================== *)

Section UseLoop.

Implicit Types (h : http.HandlerFunc) (mws : list Middleware).

Lemma Use_loop_S mws x h :
  Use_loop mws (S x) h
  = match mws !! x with
    | Some mid => Use_loop mws x (mid h)
    | None => h
    end.
Proof. done. Qed.

(** After [x] rounds the loop has wrapped the handler in the first [x]
    middlewares, the one at index [0] applied last. *)
Lemma Use_loop_take mws x h :
  x ≤ length mws →
  Use_loop mws x h = foldr (λ mid acc, mid acc) h (take x mws).
Proof.
  revert h. induction x as [|x IH]; intros h Hx; [done|].
  destruct (lookup_lt_is_Some_2 mws x) as [mid Hmid]; [lia|].
  rewrite Use_loop_S, Hmid, IH by lia.
  by rewrite (take_S_r _ _ _ Hmid), foldr_app.
Qed.

Lemma Use_foldr h mws : Use h mws = foldr (λ mid acc, mid acc) h mws.
Proof.
  unfold Use. rewrite Use_loop_take by done. by rewrite firstn_all.
Qed.

End UseLoop.

(** C1, as the code has it: the first-listed middleware is outermost.
    [Use h (mw1 :: rest)] is [mw1] applied to the composition of the rest,
    so for [[mw1; mw2]] the run is the pre-logic of [mw1], the pre-logic of
    [mw2], the handler, the post-logic of [mw2], the post-logic of [mw1]. *)
Theorem Use_first_listed_outermost :
  (∀ h, Use h [] = h)
  ∧ (∀ h mw mws, Use h (mw :: mws) = mw (Use h mws))
  ∧ (∀ h pre1 post1 pre2 post2 w r,
       Use h [around pre1 post1; around pre2 post2] w r
       = http.Write
           (http.Write (h (http.Write (http.Write w pre1) pre2) r) post2)
           post1).
Proof.
  split; [done|]. split.
  - intros h mw mws. by rewrite !Use_foldr.
  - intros. by rewrite Use_foldr.
Qed.

(** C1 as stated fails: with [[mw1; mw2]] around [h] the run is not
    [mw2]'s pre-logic first and [mw2]'s post-logic last. *)
Lemma Use_last_listed_outermost_fails :
  let mw1 := around "<1" "1>" in
  let mw2 := around "<2" "2>" in
  let run h := http.Body (h http.NewRecorder (new_request "GET" "/")) in
  run (Use (say "h") [mw1; mw2]) = "<1<2h2>1>"
  ∧ run (mw2 (mw1 (say "h"))) = "<2<1h1>2>"
  ∧ run (Use (say "h") [mw1; mw2]) ≠ run (mw2 (mw1 (say "h"))).
Proof. by vm_compute. Qed.

(* ===================================================================== *)
(** ** Registration                                                        *)
(* ===================================================================== *)

Lemma bind_ret_tt (m : M unit) σ : bind m (λ _, ret tt) σ = m σ.
Proof. unfold bind, ret. by destruct (m σ) as [[[]|msg] σ']. Qed.

(** C9: a group with one sub-route registers the concatenated path; a
    longer group registers its sub-routes in order. *)
Theorem HandleGroup_concatenates :
  (∀ p s h ms σ,
     HandleGroup p [SubHandleFunc s h ms] σ = HandleFunc (p +:+ s) h ms σ)
  ∧ (∀ p s h ms srs σ,
       HandleGroup p (SubHandleFunc s h ms :: srs) σ
       = bind (HandleFunc (p +:+ s) h ms) (λ _, HandleGroup p srs) σ).
Proof.
  split; [|done]. intros p s h ms σ. cbn [HandleGroup SubHandleFunc].
  apply bind_ret_tt.
Qed.

Section MethodsErr.

Context (path : string).

Lemma methods_err_snoc ms m :
  methods_err path (ms ++ [m])
  = if negb (checkMethod m)
    then Some ("Method " +:+ m +:+ " on " +:+ path +:+ " not allowed")
    else methods_err path ms.
Proof. unfold methods_err. by rewrite foldl_app. Qed.

(** The error is [nil] exactly when every method is allowed. *)
Lemma methods_err_None ms :
  methods_err path ms = None ↔ forallb checkMethod ms = true.
Proof.
  induction ms as [|m ms IH] using rev_ind; [done|].
  rewrite methods_err_snoc, forallb_app. cbn [forallb].
  destruct (checkMethod m); cbn [negb]; rewrite ?andb_true_r, ?andb_false_r.
  - done.
  - split; discriminate.
Qed.

Lemma methods_err_Some ms :
  forallb checkMethod ms = false → ∃ e, methods_err path ms = Some e.
Proof.
  intros Hms. destruct (methods_err path ms) as [e|] eqn:He; [by eexists|].
  apply methods_err_None in He. congruence.
Qed.

End MethodsErr.

(** C5: a static path with a method outside the allowed set: [methods]
    returns an error, and [HandleFunc] returns normally with the router and
    the mux as they were. *)
Theorem HandleFunc_static_invalid_method path h ms σ :
  (getBuiltRouteParams path).2 = [] →
  forallb checkMethod ms = false →
  (∃ e, Route_methods {| Route.Path := path; Route.Handler := h;
                         Route.Params := [] |} ms σ = (Done (Some e), σ))
  ∧ HandleFunc path h ms σ = (Done tt, σ).
Proof.
  intros Hstatic Hms. unfold HandleFunc, Route_methods, bind.
  destruct (getBuiltRouteParams path) as [key values]. cbn in Hstatic. subst.
  destruct (methods_err_Some path ms Hms) as [e He]. cbn [Route.Path].
  rewrite He. split; [by exists e | done].
Qed.

Lemma HandleFunc_static_invalid_method_witness :
  HandleFunc "/users" (say "users") ["GET"; "PATCH"] NewRouter
  = (Done tt, NewRouter).
Proof.
  apply (HandleFunc_static_invalid_method "/users" (say "users")
           ["GET"; "PATCH"] NewRouter); reflexivity.
Defined.

(** What [createBuiltRoute] does, step by step: the route is appended to
    the table first; then [methods] either finds a disallowed method and
    leaves the mux alone, or registers the concrete path, which panics on
    an empty or known pattern.  The value [methods] returns is dropped. *)
Lemma createBuiltRoute_unfold rg path h ms params σ :
  let route :=
    {| Route.Path := (createBuiltRoute_loop rg path params).1;
       Route.Handler := h;
       Route.Params := (createBuiltRoute_loop rg path params).2 |} in
  let σ1 := set_routes σ (routes (mainRouter σ) ++ [route]) in
  createBuiltRoute rg path h ms params σ
  = if forallb checkMethod ms
    then http_HandleFunc (Route.Path route)
           (if 0 <? length (Route.Params route)
            then setRouteParams (gateMethod h ms) (Route.Params route)
            else gateMethod h ms) σ1
    else (Done tt, σ1).
Proof.
  intros route σ1. unfold createBuiltRoute, routeBuilder, Route_methods.
  subst route σ1.
  destruct (createBuiltRoute_loop rg path params) as [builtPath allParams].
  cbn [fst snd bind get put ret Route.Path Route.Params Route.Handler].
  unfold bind, get, put, ret.
  destruct (forallb checkMethod ms) eqn:Hms.
  - apply methods_err_None with (path := builtPath) in Hms. rewrite Hms.
    destruct (0 <? length allParams);
      by match goal with
         | |- context [http_HandleFunc ?p ?g ?s] =>
             destruct (http_HandleFunc p g s) as [[[]|msg] σ']
         end.
  - destruct (methods_err_Some builtPath ms Hms) as [e He]. by rewrite He.
Qed.

(** The table after [createBuiltRoute], panic or not. *)
Lemma createBuiltRoute_routes rg path h ms params σ :
  routes (mainRouter (createBuiltRoute rg path h ms params σ).2)
  = routes (mainRouter σ)
      ++ [{| Route.Path := (createBuiltRoute_loop rg path params).1;
             Route.Handler := h;
             Route.Params := (createBuiltRoute_loop rg path params).2 |}].
Proof.
  rewrite createBuiltRoute_unfold. destruct (forallb checkMethod ms); [|done].
  unfold http_HandleFunc, http_Handle.
  repeat match goal with |- context [if ?b then _ else _] => destruct b end;
    done.
Qed.

Lemma createBuiltRoute_built rg path h ms params σ :
  built (mainRouter (createBuiltRoute rg path h ms params σ).2)
  = built (mainRouter σ).
Proof.
  rewrite createBuiltRoute_unfold. destruct (forallb checkMethod ms); [|done].
  unfold http_HandleFunc, http_Handle.
  repeat match goal with |- context [if ?b then _ else _] => destruct b end;
    done.
Qed.



(* ===================================================================== *)
(** ** The method gate                                                     *)
(* ===================================================================== *)

Lemma gateMethod_allowed next ms w r :
  existsb (String.eqb (http.Method r)) ms = true →
  gateMethod next ms w r = next w r.
Proof.
  unfold gateMethod. induction ms as [|m ms IH]; cbn; [done|].
  destruct (String.eqb (http.Method r) m); [done|]. exact IH.
Qed.

Lemma gateMethod_rejected next ms w r :
  existsb (String.eqb (http.Method r)) ms = false →
  gateMethod next ms w r
  = http.Write (http.WriteHeader w http.StatusNotFound) method_rejected.
Proof.
  unfold gateMethod. induction ms as [|m ms IH]; cbn; [done|].
  destruct (String.eqb (http.Method r) m); [done|]. exact IH.
Qed.

(* ===================================================================== *)
(** ** The matcher                                                         *)
(* ===================================================================== *)

Section MatcherFacts.

Context (MustCompile : string → option regexp.Regexp) (path : string).

Abbreviation loop := (getRequestParams_loop MustCompile path).
Abbreviation check := (route_check MustCompile path).

(** One round of the loop, by the verdict on the template. *)
Lemma loop_cons idx route rs sel params :
  loop idx (route :: rs) sel params
  = match check route with
    | Panic msg => Panic msg
    | Done None => loop (S idx) rs sel params
    | Done (Some segs) =>
        loop (S idx) rs (Some (idx, route)) (params_loop 0 segs params)
    end.
Proof.
  unfold route_check. cbn [getRequestParams_loop].
  destruct (MustCompile (BuiltRoute.KeyRoute route)) as [re|]; [|done].
  destruct (negb _); [|done].
  destruct (regexp.Split re path !! 1) as [rest|]; [|done].
  by destruct (_ =? _)%Z.
Qed.

(** Templates that do not match leave the selection and [params] alone. *)
Lemma loop_no_match rs idx sel params :
  forallb (λ route, checks MustCompile path route
                    && negb (matches MustCompile path route)) rs = true →
  loop idx rs sel params = Done (sel, params).
Proof.
  revert idx. induction rs as [|route rs IH]; intros idx Hrs; [done|].
  cbn [forallb] in Hrs. apply andb_prop in Hrs as [Hroute Hrs].
  rewrite loop_cons. unfold checks, matches in Hroute.
  destruct (check route) as [[segs|]|msg]; try done. by apply IH.
Qed.

Lemma indexed_cons idx route rs :
  indexed idx (route :: rs) = (idx, route) :: indexed (S idx) rs.
Proof.
  unfold indexed. cbn [imap]. rewrite Nat.add_0_r. f_equal.
  apply imap_ext. intros i x _. cbn. f_equal. lia.
Qed.

(** Without a panic the loop ends on the last template that matches, or
    on the selection it started with. *)
Lemma loop_last rs idx sel params :
  forallb (checks MustCompile path) rs = true →
  ∃ params',
    loop idx rs sel params
    = Done (later_match MustCompile path idx rs sel, params').
Proof.
  revert idx sel params.
  induction rs as [|route rs IH]; intros idx sel params Hrs.
  { by exists params. }
  cbn [forallb] in Hrs. apply andb_prop in Hrs as [Hroute Hrs].
  rewrite loop_cons. unfold later_match. rewrite indexed_cons.
  unfold checks in Hroute.
  destruct (check route) as [[segs|]|msg] eqn:Hcheck; [| |done].
  - destruct (IH (S idx) (Some (idx, route)) (params_loop 0 segs params) Hrs)
      as [params' ->].
    exists params'. do 2 f_equal. unfold later_match.
    assert (Hm : matches MustCompile path route = true)
      by (unfold matches; by rewrite Hcheck).
    rewrite filter_cons_True by exact (Is_true_true_2 _ Hm).
    rewrite last_cons. by destruct (last _).
  - destruct (IH (S idx) sel params Hrs) as [params' ->].
    exists params'. do 2 f_equal. unfold later_match.
    assert (Hm : matches MustCompile path route = false)
      by (unfold matches; by rewrite Hcheck).
    by rewrite filter_cons_False by exact (Is_true_false_2 _ Hm).
Qed.

(** A selection the loop ends on is the one it started with, [params]
    untouched, or a template of the list that matched, [params] holding
    its segments. *)
Lemma loop_selected rs idx sel params i route params' :
  loop idx rs sel params = Done (Some (i, route), params') →
  (sel = Some (i, route) ∧ params' = params)
  ∨ (∃ segs pre,
       idx ≤ i ∧ rs !! (i - idx) = Some route
       ∧ check route = Done (Some segs)
       ∧ params' = params_loop 0 segs pre).
Proof.
  revert idx sel params.
  induction rs as [|r rs IH]; intros idx sel params Hloop.
  { left. cbn in Hloop. by simplify_eq. }
  rewrite loop_cons in Hloop.
  destruct (check r) as [[segs|]|msg] eqn:Hcheck; [| |done].
  - apply IH in Hloop as [[Hsel ->]|(segs' & pre & Hle & Hlk & Hc & ->)].
    + simplify_eq. right. exists segs, params.
      by rewrite Nat.sub_diag.
    + right. exists segs', pre. split; [lia|]. split; [|done].
      by replace (i - idx) with (S (i - S idx)) by lia.
  - apply IH in Hloop as [?|(segs' & pre & Hle & Hlk & Hc & ->)];
      [by left|].
    right. exists segs', pre. split; [lia|]. split; [|done].
    by replace (i - idx) with (S (i - S idx)) by lia.
Qed.

Lemma later_match_cons idx route rs sel :
  later_match MustCompile path idx (route :: rs) sel
  = later_match MustCompile path (S idx) rs
      (if matches MustCompile path route then Some (idx, route) else sel).
Proof.
  unfold later_match. rewrite indexed_cons.
  destruct (matches MustCompile path route) eqn:Hm.
  - rewrite filter_cons_True by exact (Is_true_true_2 _ Hm).
    rewrite last_cons. by destruct (last _).
  - by rewrite filter_cons_False by exact (Is_true_false_2 _ Hm).
Qed.

Abbreviation no_match :=
  (Forall (λ route, matches MustCompile path route = false)).

(** [later_match] is the start selection when nothing matches, and
    otherwise a matching template after which nothing matches. *)
Lemma later_match_spec rs idx sel :
  (later_match MustCompile path idx rs sel = sel ∧ no_match rs)
  ∨ (∃ i route,
       later_match MustCompile path idx rs sel = Some (i, route)
       ∧ idx ≤ i ∧ rs !! (i - idx) = Some route
       ∧ matches MustCompile path route = true
       ∧ no_match (drop (S (i - idx)) rs)).
Proof.
  revert idx sel. induction rs as [|r rs IH]; intros idx sel.
  { left. by split. }
  rewrite later_match_cons.
  destruct (IH (S idx)
              (if matches MustCompile path r then Some (idx, r) else sel))
    as [[Heq Hno]|(i & route & Heq & Hle & Hlk & Hm & Hno)].
  - destruct (matches MustCompile path r) eqn:Hr.
    + right. exists idx, r. rewrite Heq, Nat.sub_diag. by repeat split.
    + left. rewrite Heq. split; [done|]. by constructor.
  - right. exists i, route. rewrite Heq.
    replace (i - idx) with (S (i - S idx)) by lia.
    repeat split; [lia|done..].
Qed.

End MatcherFacts.

(** C2, as the code has it: the loop has no early exit, so among the
    templates that match the path the last-registered one is selected.
    When no check panics, [getRequestParams] returns, the router is as it
    was, and the selection is the matching template with the highest
    index, [nil] when none matches. *)
Theorem getRequestParams_selects_last_registered MustCompile path σ :
  forallb (checks MustCompile path) (built (mainRouter σ)) = true →
  ∃ sel params,
    getRequestParams MustCompile path σ = (Done (sel, params), σ)
    ∧ sel = last_match MustCompile path (built (mainRouter σ))
    ∧ match sel with
      | Some (i, route) =>
          built (mainRouter σ) !! i = Some route
          ∧ matches MustCompile path route = true
          ∧ Forall (λ later, matches MustCompile path later = false)
                   (drop (S i) (built (mainRouter σ)))
      | None =>
          Forall (λ route, matches MustCompile path route = false)
                 (built (mainRouter σ))
      end.
Proof.
  intros Hchecks. unfold getRequestParams.
  destruct (loop_last MustCompile path _ 0 None ∅ Hchecks) as [params ->].
  eexists _, params. split; [done|].
  assert (Hlast : later_match MustCompile path 0 (built (mainRouter σ)) None
                  = last_match MustCompile path (built (mainRouter σ)))
    by (unfold later_match, last_match; by destruct (last _)).
  split; [done|].
  destruct (later_match_spec MustCompile path (built (mainRouter σ)) 0 None)
    as [[-> Hno]|(i & route & -> & _ & Hlk & Hm & Hno)]; [done|].
  by rewrite Nat.sub_0_r in Hlk, Hno.
Qed.

Lemma getRequestParams_selects_last_registered_witness :
  ∃ sel params,
    getRequestParams literal_compile "/users/42" two_templates
    = (Done (sel, params), two_templates)
    ∧ sel = last_match literal_compile "/users/42"
              (built (mainRouter two_templates))
    ∧ match sel with
      | Some (i, route) =>
          built (mainRouter two_templates) !! i = Some route
          ∧ matches literal_compile "/users/42" route = true
          ∧ Forall (λ later, matches literal_compile "/users/42" later = false)
                   (drop (S i) (built (mainRouter two_templates)))
      | None =>
          Forall (λ route, matches literal_compile "/users/42" route = false)
                 (built (mainRouter two_templates))
      end.
Proof.
  apply (getRequestParams_selects_last_registered literal_compile
           "/users/42" two_templates).
  reflexivity.
Defined.

(** C2 as stated fails: with [/users/{id}] registered before
    [/users/{name}], both match [/users/42], the first-registered one is at
    index 0, and the matcher selects the one at index 1. *)
Lemma first_registered_not_selected :
  let bs := built (mainRouter two_templates) in
  forallb (matches literal_compile "/users/42") bs = true
  ∧ BuiltRoute.TempPath <$> bs = ["/users/{id}"; "/users/{name}"]
  ∧ fst <$> first_match literal_compile "/users/42" bs = Some 0
  ∧ selected_template
      (getRequestParams literal_compile "/users/42" two_templates)
    = Some (1, "/users/{name}").
Proof. by vm_compute. Qed.

Section Resolution.

Context (MustCompile : string → option regexp.Regexp).

(** What a match of a template says about the path. *)
Lemma route_check_Some path route segs :
  route_check MustCompile path route = Done (Some segs) →
  ∃ re rest,
    MustCompile (BuiltRoute.KeyRoute route) = Some re
    ∧ regexp.FindString re path ≠ ""
    ∧ regexp.Split re path !! 1 = Some rest
    ∧ segs = gostrings.Split rest "/"
    ∧ length segs = S (size (BuiltRoute.Var route)).
Proof.
  unfold route_check. intros Hcheck.
  destruct (MustCompile (BuiltRoute.KeyRoute route)) as [re|]; [|done].
  destruct (String.eqb (regexp.FindString re path) "") eqn:Hfind; [done|].
  cbn [negb] in Hcheck.
  destruct (regexp.Split re path !! 1) as [rest|] eqn:Hsplit; [|done].
  destruct (_ =? _)%Z eqn:Hcount; [|done]. simplify_eq.
  exists re, rest. apply String.eqb_neq in Hfind.
  apply Z.eqb_eq in Hcount. split_and!; [done..|lia].
Qed.

(** A selected template is one of [built] and matched the path. *)
Lemma getRequestParams_selected path σ i route params σ' :
  getRequestParams MustCompile path σ
  = (Done (Some (i, route), params), σ') →
  σ' = σ
  ∧ built (mainRouter σ) !! i = Some route
  ∧ ∃ segs pre,
      route_check MustCompile path route = Done (Some segs)
      ∧ params = params_loop 0 segs pre.
Proof.
  unfold getRequestParams. intros Hget.
  destruct (getRequestParams_loop MustCompile path 0
              (built (mainRouter σ)) None ∅)
    as [[sel params']|msg] eqn:Hloop; [|done].
  simplify_eq. split; [done|].
  apply loop_selected in Hloop
    as [[? _]|(segs & pre & _ & Hlk & Hcheck & ->)]; [done|].
  rewrite Nat.sub_0_r in Hlk. split; [done|]. by exists segs, pre.
Qed.

(** Without a selection the answer is the not-found response, and the
    router and the mux are as they were. *)
Lemma redirectBuiltRoute_no_match rg1 rg2 w r σ :
  forallb (λ route, checks MustCompile (http.URL_Path r) route
                    && negb (matches MustCompile (http.URL_Path r) route))
          (built (mainRouter σ)) = true →
  redirectBuiltRoute MustCompile rg1 rg2 w r σ = (Done (not_found w), σ).
Proof.
  intros Hno. unfold redirectBuiltRoute, bind, getRequestParams.
  by rewrite (loop_no_match MustCompile _ _ 0 None ∅ Hno).
Qed.

End Resolution.




(* ===================================================================== *)
(** ** Templates whose first segment is a variable                        *)
(* ===================================================================== *)

(** The empty expression matches the empty string at offset 0, so
    [FindString] returns the empty string on every path. *)
Lemma FindString_empty_pattern path :
  regexp.FindString (regexp.literal "") path = "".
Proof. by destruct path. Qed.

Lemma route_check_empty_key path route :
  BuiltRoute.KeyRoute route = "" →
  route_check literal_compile path route = Done None.
Proof.
  intros Hkey. unfold route_check, literal_compile.
  by rewrite Hkey, FindString_empty_pattern.
Qed.

(** C8 at the template [/{id}]: the parser gives the prefix and the names
    as it does for [/users/{id}/posts/{postId}], here the empty prefix and
    the variable [id]; registration accepts the template; and the matcher
    never selects it: every request gets the not-found response, whatever
    its path; so does [GET /42]. *)
Theorem root_variable_template_never_matches :
  getBuiltRouteParams "/users/{id}/posts/{postId}"
  = ("users", [["{id}"; "id"]; ["{postId}"; "postId"]])
  ∧ getBuiltRouteParams "/{id}" = ("", [["{id}"; "id"]])
  ∧ (∀ h ms,
       built (mainRouter (registered "/{id}" h ms NewRouter))
       = [new_template "/{id}" h ms])
  ∧ (∀ h ms rg1 rg2 w r,
       redirectBuiltRoute literal_compile rg1 rg2 w r
         (registered "/{id}" h ms NewRouter)
       = (Done (not_found w), registered "/{id}" h ms NewRouter))
  ∧ summary (resolve "GET" "/42" root_variable_router)
    = (Some (Some 404, route_not_found), [], ["/health"; "/"]).
Proof.
  split_and!; [done..| |done].
  intros. apply redirectBuiltRoute_no_match.
  change (built (mainRouter (registered "/{id}" h ms NewRouter)))
    with [new_template "/{id}" h ms].
  cbn [forallb]. unfold checks, matches.
  by rewrite route_check_empty_key.
Qed.

(* ===================================================================== *)
(** ** Resolving a templated path                                          *)
(* ===================================================================== *)

Lemma bind_values_lookup var params idx :
  bind_values var params !! idx
  = (λ v, {| Variable_.Name := Variable_.Name v;
             Variable_.Value := default "" (params !! idx) |})
      <$> var !! idx.
Proof. unfold bind_values. rewrite map_lookup_imap. by destruct (var !! idx). Qed.



Lemma bind_values_names var params :
  Variable_.Name <$> bind_values var params = Variable_.Name <$> var.
Proof.
  apply map_eq. intros idx. rewrite !lookup_fmap, bind_values_lookup.
  by destruct (var !! idx).
Qed.

Section Resolving.

Context (MustCompile : string → option regexp.Regexp) (path : string).

Abbreviation same_verdict :=
  (λ a b : BuiltRoute.t,
     route_check MustCompile path a = route_check MustCompile path b).





End Resolving.

Section Resolved.

Context (MustCompile : string → option regexp.Regexp).
Context (rg1 rg2 : Range) (w : http.ResponseWriter) (r : http.Request).
Context (σ : World) (i : nat) (route : BuiltRoute.t).
Context (params : gmap nat string).
Hypothesis Hget :
  getRequestParams MustCompile (http.URL_Path r) σ
  = (Done (Some (i, route), params), σ).

Let var := bind_values (BuiltRoute.Var route) params.
Let σa :=
  set_built σ (<[i := BuiltRoute.with_Var route var]> (built (mainRouter σ))).

(** [redirectBuiltRoute] on a selected template: the values are bound,
    the concrete route is built, and unless that panics the template's
    handler is served behind the method gate and the parameter binder. *)
Lemma redirectBuiltRoute_selected :
  redirectBuiltRoute MustCompile rg1 rg2 w r σ
  = match createBuiltRoute rg2 (BuiltRoute.TempPath route)
            (BuiltRoute.Handler route) (BuiltRoute.Methods route) var σa
    with
    | (Done _, σ') =>
        (Done (setRouteParams
                 (gateMethod (BuiltRoute.Handler route)
                             (BuiltRoute.Methods route))
                 (rg1 var).*2 w r), σ')
    | (Panic msg, σ') => (Panic msg, σ')
    end.
Proof.
  unfold redirectBuiltRoute, bind at 1. rewrite Hget.
  unfold bind, get, put, ret. by subst var σa.
Qed.

(** The static table and the templates after the request. *)
Lemma redirectBuiltRoute_tables :
  let σ' := (redirectBuiltRoute MustCompile rg1 rg2 w r σ).2 in
  routes (mainRouter σ')
  = routes (mainRouter σ)
      ++ [{| Route.Path :=
               (createBuiltRoute_loop rg2 (BuiltRoute.TempPath route) var).1;
             Route.Handler := BuiltRoute.Handler route;
             Route.Params :=
               (createBuiltRoute_loop rg2 (BuiltRoute.TempPath route) var).2
          |}]
  ∧ built (mainRouter σ')
    = <[i := BuiltRoute.with_Var route var]> (built (mainRouter σ)).
Proof.
  cbv zeta. rewrite redirectBuiltRoute_selected.
  pose proof (createBuiltRoute_routes rg2 (BuiltRoute.TempPath route)
                (BuiltRoute.Handler route) (BuiltRoute.Methods route)
                var σa) as Hroutes.
  pose proof (createBuiltRoute_built rg2 (BuiltRoute.TempPath route)
                (BuiltRoute.Handler route) (BuiltRoute.Methods route)
                var σa) as Hbuilt.
  by destruct (createBuiltRoute _ _ _ _ _ _) as [[[]|msg] σ'].
Qed.

Hypothesis Hmux :
  implb (forallb checkMethod (BuiltRoute.Methods route))
        (mux_accepts σ
           (createBuiltRoute_loop rg2 (BuiltRoute.TempPath route) var).1)
  = true.


End Resolved.

(** A static route with allowed methods goes on the mux behind its method
    gate. *)
Lemma HandleFunc_static_registers path h ms σ :
  (getBuiltRouteParams path).2 = [] →
  forallb checkMethod ms = true →
  mux_accepts σ path = true →
  HandleFunc path h ms σ
  = (Done tt,
     set_routes
       (set_mux σ (DefaultServeMux σ ++ [(path, Serve (gateMethod h ms))]))
       (routes (mainRouter σ)
          ++ [{| Route.Path := path; Route.Handler := h;
                 Route.Params := [] |}])).
Proof.
  intros Hstatic Hms Hmux. unfold HandleFunc, Route_methods, bind.
  destruct (getBuiltRouteParams path) as [key values]. cbn in Hstatic. subst.
  apply methods_err_None with (path := path) in Hms. cbn [Route.Path].
  rewrite Hms. cbn. unfold mux_accepts in Hmux.
  apply andb_prop in Hmux as [Hne Hfresh].
  apply negb_true_iff in Hne, Hfresh.
  unfold http_HandleFunc, http_Handle. by rewrite Hne, Hfresh.
Qed.






(* ===================================================================== *)
(** ** Binding the segments to the variables                               *)
(* ===================================================================== *)

(** [params] after the loop over the split: key [k] holds element [k+1]
    of the split, the older entry where the split is too short. *)
Lemma params_loop_lookup segs n pre k :
  params_loop n segs pre !! k
  = match (if decide (n ≤ S k) then segs !! (S k - n) else None) with
    | Some val => Some val
    | None => pre !! k
    end.
Proof.
  revert n pre. induction segs as [|val segs IH]; intros n pre.
  { cbn. by case_decide. }
  cbn [params_loop]. rewrite IH.
  destruct (decide (S n ≤ S k)) as [Hle|Hgt].
  - rewrite decide_True by lia.
    replace (S k - n) with (S (S k - S n)) by lia. cbn [lookup list_lookup].
    destruct (segs !! (S k - S n)); [done|].
    destruct (n =? 0) eqn:Hn; [done|]. apply Nat.eqb_neq in Hn.
    by rewrite lookup_insert_ne by lia.
  - destruct (decide (n ≤ S k)) as [Hle'|Hgt'].
    + assert (n = S k) as -> by lia. rewrite Nat.sub_diag. cbn.
      by rewrite Nat.sub_0_r, lookup_insert_eq.
    + destruct (n =? 0) eqn:Hn; [apply Nat.eqb_eq in Hn; lia|].
      by rewrite lookup_insert_ne by lia.
Qed.

Lemma params_loop_segment segs pre k :
  S k < length segs → params_loop 0 segs pre !! k = segs !! S k.
Proof.
  intros Hk. rewrite params_loop_lookup, decide_True, Nat.sub_0_r by lia.
  by destruct (lookup_lt_is_Some_2 segs (S k) Hk) as [val ->].
Qed.

Section Binder.

Abbreviation with_value :=
  (λ ctx param,
     context.WithValue ctx (Variable_.Name param) (Variable_.Value param)).

Implicit Types (l : list Variable_.t) (ctx : context.Context).



End Binder.

(** The declared names determine the keys of [Var]. *)
Lemma declared_size (var : gmap nat Variable_.t) (names : list string) :
  Variable_.Name <$> var = map_seq 0 names → size var = length names.
Proof.
  intros Hdecl. rewrite <-(map_size_fmap Variable_.Name), Hdecl.
  rewrite <-(size_dom (D := gset nat)), dom_seq_L.
  apply size_set_seq.
Qed.


Lemma declared_lookup_inv (var : gmap nat Variable_.t) names k name :
  Variable_.Name <$> var = map_seq 0 names →
  names !! k = Some name →
  ∃ v, var !! k = Some v ∧ Variable_.Name v = name.
Proof.
  intros Hdecl Hk.
  rewrite <-(lookup_map_seq_0 (M := gmap nat)), <-Hdecl, lookup_fmap in Hk.
  destruct (var !! k) as [v|]; simplify_eq/=. by exists v.
Qed.

(** [HandleFunc] declares the names of the markers in their order. *)
Lemma valuesList_loop_seq idx values valuesList :
  valuesList_loop idx values valuesList
  = map_seq idx ((λ name, {| Variable_.Name := default "" (name !! 1);
                             Variable_.Value := "" |}) <$> values)
    ∪ valuesList.
Proof.
  revert idx valuesList.
  induction values as [|name values IH]; intros idx valuesList.
  { cbn. by rewrite (left_id_L ∅ (∪)). }
  cbn [valuesList_loop]. rewrite IH, fmap_cons, map_seq_cons.
  rewrite <-insert_union_r by (apply lookup_map_seq_None; lia).
  by rewrite insert_union_l.
Qed.

Lemma new_template_declares path h ms :
  Variable_.Name <$> BuiltRoute.Var (new_template path h ms)
  = map_seq 0 ((λ name, default "" (name !! 1))
                 <$> (getBuiltRouteParams path).2).
Proof.
  unfold new_template. destruct (getBuiltRouteParams path) as [key values].
  cbn [BuiltRoute.Var snd].
  rewrite valuesList_loop_seq, (right_id_L ∅ (∪)), fmap_map_seq.
  by rewrite <-list_fmap_compose.
Qed.



(* ===================================================================== *)
(** ** More on middleware, the binder and the gate                         *)
(* ===================================================================== *)

(** X1: composing with a list of middlewares in two steps: the tail of the
    list goes around the handler first, the head of the list around the
    result. *)
Theorem Use_app h mws1 mws2 :
  Use h (mws1 ++ mws2) = Use (Use h mws2) mws1.
Proof. by rewrite !Use_foldr, foldr_app. Qed.

Lemma last_bound_snoc name params param :
  last_bound name (params ++ [param])
  = if decide (Variable_.Name param = name)
    then Some (Variable_.Value param)
    else last_bound name params.
Proof.
  unfold last_bound. rewrite filter_app.
  destruct (decide (Variable_.Name param = name)) as [Heq|Hne].
  - rewrite filter_cons_True by done. cbn. by rewrite last_snoc.
  - rewrite filter_cons_False by done. cbn. by rewrite app_nil_r.
Qed.

Lemma Value_foldl_last_bound params ctx name :
  context.Value
    (foldl (λ ctx param,
              context.WithValue ctx (Variable_.Name param)
                                (Variable_.Value param)) ctx params) name
  = match last_bound name params with
    | Some value => Some value
    | None => context.Value ctx name
    end.
Proof.
  induction params as [|param params IH] using rev_ind; [done|].
  rewrite foldl_app, last_bound_snoc. cbn.
  destruct (String.eqb_spec name (Variable_.Name param)) as [->|Hne].
  - by rewrite decide_True.
  - by rewrite decide_False, IH.
Qed.

(** X2: what the handler behind [setRouteParams] sees: the same writer,
    method and path, and a context in which [GetVar] answers, for every
    name, the value of the last parameter with that name, and what the
    incoming request answers when no parameter has the name. *)
Theorem setRouteParams_binds_last next params w r :
  ∃ r',
    setRouteParams next params w r = next w r'
    ∧ http.Method r' = http.Method r
    ∧ http.URL_Path r' = http.URL_Path r
    ∧ ∀ name,
        GetVar (RouteVariables r') name
        = match last_bound name params with
          | Some value => Some value
          | None => GetVar (RouteVariables r) name
          end.
Proof.
  eexists. split; [reflexivity|]. split; [done|]. split; [done|].
  intros name. unfold GetVar, RouteVariables. cbn.
  apply Value_foldl_last_bound.
Qed.

(** X3: binding a list of parameters is binding its front part around
    binding its back part. *)
Theorem setRouteParams_app next params1 params2 w r :
  setRouteParams next (params1 ++ params2) w r
  = setRouteParams (setRouteParams next params2) params1 w r.
Proof. unfold setRouteParams. by rewrite foldl_app. Qed.

Lemma checkMethod_loop_spec m ms : checkMethod_loop m ms = true ↔ m ∈ ms.
Proof.
  induction ms as [|method ms IH]; cbn [checkMethod_loop].
  - split; [done|]. by intros ?%elem_of_nil.
  - rewrite elem_of_cons.
    destruct (String.eqb_spec m method) as [->|Hne]; [by split; [left|]|].
    rewrite IH. split; [by right|]. by intros [?|?].
Qed.

Lemma gateMethod_spec next ms w r :
  gateMethod next ms w r
  = if existsb (String.eqb (http.Method r)) ms then next w r
    else http.Write (http.WriteHeader w http.StatusNotFound) method_rejected.
Proof.
  destruct (existsb _ ms) eqn:Hms;
    [by apply gateMethod_allowed | by apply gateMethod_rejected].
Qed.

Lemma mux_accepts_spec σ pattern h :
  mux_accepts σ pattern = true →
  http_Handle pattern h σ
  = (Done tt, set_mux σ (DefaultServeMux σ ++ [(pattern, h)])).
Proof.
  unfold mux_accepts, http_Handle. intros [Hne Hfresh]%andb_prop.
  apply negb_true_iff in Hne, Hfresh. by rewrite Hne, Hfresh.
Qed.

Lemma mux_known_panics σ pattern h :
  pattern ≠ "" →
  existsb (String.eqb pattern) (DefaultServeMux σ).*1 = true →
  http_Handle pattern h σ
  = (Panic ("http: multiple registrations for " +:+ pattern), σ).
Proof.
  unfold http_Handle. intros Hne%String.eqb_neq Hknown.
  by rewrite Hne, Hknown.
Qed.

Lemma existsb_snoc_self pattern (l : list string) :
  existsb (String.eqb pattern) (l ++ [pattern]) = true.
Proof.
  rewrite existsb_app. cbn. rewrite String.eqb_refl.
  by rewrite orb_true_r.
Qed.

(** X4: a static path with allowed methods that the mux takes: the route
    is appended to the table and put on the mux; the handler on the mux
    runs the route's handler on the requests whose method is declared,
    untouched, and answers every other request with the 404 of the gate
    without running it. *)
Theorem static_route_behind_gate path h ms σ :
  (getBuiltRouteParams path).2 = [] →
  forallb checkMethod ms = true →
  mux_accepts σ path = true →
  ∃ g,
    HandleFunc path h ms σ
    = (Done tt,
       set_routes
         (set_mux σ (DefaultServeMux σ ++ [(path, Serve g)]))
         (routes (mainRouter σ)
            ++ [{| Route.Path := path; Route.Handler := h;
                   Route.Params := [] |}]))
    ∧ ∀ w r,
        g w r
        = if bool_decide (http.Method r ∈ ms) then h w r
          else http.Write (http.WriteHeader w http.StatusNotFound)
                          method_rejected.
Proof.
  intros Hstatic Hms Hmux. exists (gateMethod h ms).
  split; [by apply HandleFunc_static_registers|].
  intros w r. rewrite gateMethod_spec.
  destruct (existsb _ ms) eqn:Hex.
  - rewrite bool_decide_eq_true_2; [done|].
    apply existsb_exists in Hex as (m & Hin & ->%String.eqb_eq).
    by apply list_elem_of_In.
  - rewrite bool_decide_eq_false_2; [done|]. intros Hin.
    apply list_elem_of_In in Hin.
    assert (existsb (String.eqb (http.Method r)) ms = true); [|congruence].
    apply existsb_exists. exists (http.Method r).
    by rewrite String.eqb_refl.
Qed.

Lemma static_route_behind_gate_witness :
  ∃ g,
    HandleFunc "/users" (say "users") ["GET"] NewRouter
    = (Done tt,
       set_routes
         (set_mux NewRouter
            (DefaultServeMux NewRouter ++ [("/users", Serve g)]))
         [{| Route.Path := "/users"; Route.Handler := say "users";
             Route.Params := [] |}])
    ∧ http.Body (g http.NewRecorder (new_request "GET" "/users")) = "users"
    ∧ http.Status (g http.NewRecorder (new_request "PUT" "/users"))
      = Some 404.
Proof.
  destruct (static_route_behind_gate "/users" (say "users") ["GET"] NewRouter)
    as (g & Hreg & Hg); [reflexivity..|].
  exists g. split; [exact Hreg|]. by rewrite !Hg.
Defined.

(** X5: registering a static path a second time panics in
    [http.HandleFunc]; the panic comes before the append, so the table
    keeps the one entry of the first registration. *)
Theorem static_route_twice_panics path h ms h' ms' σ :
  (getBuiltRouteParams path).2 = [] →
  forallb checkMethod ms = true →
  forallb checkMethod ms' = true →
  mux_accepts σ path = true →
  let σ1 := (HandleFunc path h ms σ).2 in
  HandleFunc path h' ms' σ1
  = (Panic ("http: multiple registrations for " +:+ path), σ1)
  ∧ routes (mainRouter σ1)
    = routes (mainRouter σ)
        ++ [{| Route.Path := path; Route.Handler := h; Route.Params := [] |}].
Proof.
  intros Hstatic Hms Hms' Hmux σ1. subst σ1.
  rewrite (HandleFunc_static_registers _ _ _ _ Hstatic Hms Hmux).
  cbn [snd]. split; [|done].
  unfold HandleFunc, Route_methods, bind.
  destruct (getBuiltRouteParams path) as [key values]. cbn in Hstatic. subst.
  apply methods_err_None with (path := path) in Hms'. cbn [Route.Path].
  rewrite Hms'. cbn [Route.Params length Nat.ltb Nat.leb].
  unfold http_HandleFunc. rewrite mux_known_panics; [done| |].
  - unfold mux_accepts in Hmux. apply andb_prop in Hmux as [Hne _].
    apply negb_true_iff in Hne. by apply String.eqb_neq.
  - cbn [DefaultServeMux set_routes set_mux]. rewrite fmap_app. cbn.
    apply existsb_snoc_self.
Qed.

Lemma static_route_twice_panics_witness :
  let σ1 := (HandleFunc "/users" (say "a") ["GET"] NewRouter).2 in
  HandleFunc "/users" (say "b") ["POST"] σ1
  = (Panic "http: multiple registrations for /users", σ1)
  ∧ paths σ1 = ["/users"].
Proof.
  destruct (static_route_twice_panics "/users" (say "a") ["GET"] (say "b")
              ["POST"] NewRouter) as [Hpanic Hroutes]; [reflexivity..|].
  split; [exact Hpanic|]. unfold paths. by rewrite Hroutes.
Defined.

(** X6: a static route registered without any method is accepted, and its
    handler on the mux answers every request with the 404 of the gate: the
    route's own handler never runs. *)
Theorem static_route_without_methods path h σ :
  (getBuiltRouteParams path).2 = [] →
  mux_accepts σ path = true →
  ∃ g,
    (HandleFunc path h [] σ).1 = Done tt
    ∧ last (DefaultServeMux (HandleFunc path h [] σ).2) = Some (path, Serve g)
    ∧ ∀ w r,
        g w r
        = http.Write (http.WriteHeader w http.StatusNotFound) method_rejected.
Proof.
  intros Hstatic Hmux. exists (gateMethod h []).
  rewrite (HandleFunc_static_registers path h [] σ Hstatic eq_refl Hmux).
  cbn [fst snd DefaultServeMux set_routes set_mux].
  by rewrite last_snoc.
Qed.

Lemma static_route_without_methods_witness :
  ∃ g,
    last (DefaultServeMux (HandleFunc "/users" (say "users") [] NewRouter).2)
    = Some ("/users", Serve g)
    ∧ http.Status (g http.NewRecorder (new_request "GET" "/users"))
      = Some 404.
Proof.
  destruct (static_route_without_methods "/users" (say "users") NewRouter)
    as (g & _ & Hlast & Hg); [reflexivity..|].
  exists g. split; [exact Hlast|]. by rewrite Hg.
Defined.

(* ===================================================================== *)
(** ** Groups                                                              *)
(* ===================================================================== *)

Lemma bind_assoc {A B C} (m : M A) (f : A → M B) (g : B → M C) σ :
  bind (bind m f) g σ = bind m (λ a, bind (f a) g) σ.
Proof. unfold bind. by destruct (m σ) as [[a|msg] σ']. Qed.

Lemma bind_ext {A B} (m : M A) (f g : A → M B) σ :
  (∀ a σ', f a σ' = g a σ') → bind m f σ = bind m g σ.
Proof. intros Hfg. unfold bind. by destruct (m σ) as [[a|msg] σ']. Qed.

Lemma HandleGroup_bind_app p srs1 srs2 σ :
  HandleGroup p (srs1 ++ srs2) σ
  = bind (HandleGroup p srs1) (λ _, HandleGroup p srs2) σ.
Proof.
  revert σ. induction srs1 as [|sr srs1 IH]; intros σ; [done|].
  cbn [app HandleGroup]. rewrite bind_assoc.
  apply bind_ext. intros _ σ'. apply IH.
Qed.

(** A static path with a disallowed method leaves everything as it was. *)
Lemma HandleFunc_static_dropped path h ms σ :
  (getBuiltRouteParams path).2 = [] →
  forallb checkMethod ms = false →
  HandleFunc path h ms σ = (Done tt, σ).
Proof.
  intros Hstatic Hms. unfold HandleFunc, Route_methods, bind.
  destruct (getBuiltRouteParams path) as [key values]. cbn in Hstatic. subst.
  destruct (methods_err_Some path ms Hms) as [e He]. cbn [Route.Path].
  by rewrite He.
Qed.

(** X7: a group stops at the first sub-route whose registration panics:
    the sub-routes before it are registered, those after it are not looked
    at, and the panic is the group's. *)
Theorem HandleGroup_stops_at_panic p srs1 sr srs2 σ σ1 σ2 msg :
  HandleGroup p srs1 σ = (Done tt, σ1) →
  HandleFunc (p +:+ SubHandle.Path sr) (SubHandle.Handler sr)
             (SubHandle.Methods sr) σ1 = (Panic msg, σ2) →
  HandleGroup p (srs1 ++ sr :: srs2) σ = (Panic msg, σ2).
Proof.
  intros Hbefore Hpanic. rewrite HandleGroup_bind_app. unfold bind.
  rewrite Hbefore. cbn [HandleGroup]. unfold bind. by rewrite Hpanic.
Qed.

Lemma HandleGroup_stops_at_panic_witness :
  let group :=
    [SubHandleFunc "/a" (say "a") ["GET"];
     SubHandleFunc "/a" (say "again") ["GET"];
     SubHandleFunc "/b" (say "b") ["GET"]] in
  let σ1 := registered "/api/a" (say "a") ["GET"] NewRouter in
  HandleGroup "/api" group NewRouter
  = (Panic "http: multiple registrations for /api/a", σ1)
  ∧ paths σ1 = ["/api/a"].
Proof.
  split; [|reflexivity].
  exact (HandleGroup_stops_at_panic "/api"
           [SubHandleFunc "/a" (say "a") ["GET"]]
           (SubHandleFunc "/a" (say "again") ["GET"])
           [SubHandleFunc "/b" (say "b") ["GET"]] NewRouter
           (registered "/api/a" (say "a") ["GET"] NewRouter)
           (registered "/api/a" (say "a") ["GET"] NewRouter)
           "http: multiple registrations for /api/a" eq_refl eq_refl).
Defined.

(** X8: a sub-route whose path is static and whose methods include a
    disallowed one is left out of the group without a trace: the group
    registers what it would register without it. *)
Theorem HandleGroup_drops_invalid_subroute p srs1 sr srs2 σ :
  (getBuiltRouteParams (p +:+ SubHandle.Path sr)).2 = [] →
  forallb checkMethod (SubHandle.Methods sr) = false →
  HandleGroup p (srs1 ++ sr :: srs2) σ = HandleGroup p (srs1 ++ srs2) σ.
Proof.
  intros Hstatic Hms. rewrite !HandleGroup_bind_app. unfold bind.
  destruct (HandleGroup p srs1 σ) as [[[]|msg] σ1]; [|done].
  cbn [HandleGroup]. unfold bind.
  by rewrite (HandleFunc_static_dropped _ _ _ _ Hstatic Hms).
Qed.

Lemma HandleGroup_drops_invalid_subroute_witness :
  HandleGroup "/api"
    [SubHandleFunc "/a" (say "a") ["GET"];
     SubHandleFunc "/x" (say "x") ["PATCH"];
     SubHandleFunc "/b" (say "b") ["GET"]] NewRouter
  = HandleGroup "/api"
      [SubHandleFunc "/a" (say "a") ["GET"];
       SubHandleFunc "/b" (say "b") ["GET"]] NewRouter.
Proof.
  apply (HandleGroup_drops_invalid_subroute "/api"
           [SubHandleFunc "/a" (say "a") ["GET"]]
           (SubHandleFunc "/x" (say "x") ["PATCH"])
           [SubHandleFunc "/b" (say "b") ["GET"]] NewRouter);
    reflexivity.
Defined.

(* ===================================================================== *)
(** ** Strings                                                             *)
(* ===================================================================== *)

Section StringFacts.

Implicit Types (s t pre : string) (c d : ascii).

Lemma append_cons c s t : String c s +:+ t = String c (s +:+ t).
Proof. done. Qed.

Lemma append_nil_r s : s +:+ "" = s.
Proof. induction s as [|c s IH]; [done|]. by rewrite append_cons, IH. Qed.

Lemma append_assoc s t u : (s +:+ t) +:+ u = s +:+ (t +:+ u).
Proof. induction s as [|c s IH]; [done|]. by rewrite !append_cons, IH. Qed.

Lemma length_append s t :
  String.length (s +:+ t) = String.length s + String.length t.
Proof. induction s as [|c s IH]; [done|]. rewrite append_cons. cbn. by rewrite IH. Qed.

Lemma substring_0_0 s : String.substring 0 0 s = "".
Proof. by destruct s. Qed.

Lemma substring_0_all s : String.substring 0 (String.length s) s = s.
Proof. induction s as [|c s IH]; [done|]. cbn. by rewrite IH. Qed.

Lemma substring_0_app pre s n :
  String.substring 0 (String.length pre + n) (pre +:+ s)
  = pre +:+ String.substring 0 n s.
Proof.
  induction pre as [|c pre IH]; [done|].
  rewrite !append_cons. cbn. by rewrite IH.
Qed.

Lemma substring_0_pre pre s :
  String.substring 0 (String.length pre) (pre +:+ s) = pre.
Proof.
  rewrite <-(Nat.add_0_r (String.length pre)), substring_0_app.
  by rewrite substring_0_0, append_nil_r.
Qed.

Lemma substring_skip pre s n m :
  String.substring (String.length pre + n) m (pre +:+ s)
  = String.substring n m s.
Proof. induction pre as [|c pre IH]; [done|]. by rewrite append_cons. Qed.

Lemma get_split n : ∀ s d,
  String.get n s = Some d →
  ∃ rest, s = String.substring 0 n s +:+ String d rest.
Proof.
  induction n as [|n IH]; intros [|c s] d Hget; try done.
  - cbn in Hget. simplify_eq. by exists s.
  - cbn in Hget. destruct (IH s d Hget) as [rest Hs].
    exists rest. cbn [String.substring]. rewrite append_cons. by f_equal.
Qed.

End StringFacts.

(* ===================================================================== *)
(** ** More on the template parser                                         *)
(* ===================================================================== *)

Lemma word_run_prefix s :
  all_word (String.substring 0 (regexp.word_run s) s) = true.
Proof.
  induction s as [|c s IH]; [done|]. cbn [regexp.word_run].
  destruct (regexp.is_word c) eqn:Hc; [|done].
  cbn. by rewrite Hc, IH.
Qed.

Lemma word_run_le s : regexp.word_run s ≤ String.length s.
Proof.
  induction s as [|c s IH]; [done|]. cbn.
  destruct (regexp.is_word c); cbn; lia.
Qed.

Lemma length_substring_0 n : ∀ s,
  n ≤ String.length s → String.length (String.substring 0 n s) = n.
Proof.
  induction n as [|n IH]; intros [|c s] Hn; cbn in *; try done; try lia.
  - by rewrite IH by lia.
Qed.

(** A match of the marker expression at the head of a text is an opening
    brace, a name of word characters and a closing brace. *)
Lemma marker_at_inv s len :
  regexp.marker_at s = Some len →
  ∃ name rest,
    s = String "{"%char (name +:+ String "}"%char rest)
    ∧ len = String.length name + 2
    ∧ all_word name = true.
Proof.
  unfold regexp.marker_at. destruct s as [|c r]; [done|].
  destruct (Ascii.eqb_spec c "{"%char) as [->|Hc]; cycle 1.
  { by destruct c as [[] [] [] [] [] [] [] []]. }
  destruct (String.get (regexp.word_run r) r) as [d|] eqn:Hget; [|done].
  destruct (Ascii.eqb_spec d "}"%char) as [->|Hd]; cycle 1.
  { by destruct d as [[] [] [] [] [] [] [] []]. }
  intros [= <-]. destruct (get_split _ _ _ Hget) as [rest Hr].
  exists (String.substring 0 (regexp.word_run r) r), rest.
  split; [by f_equal|]. split; [|apply word_run_prefix].
  by rewrite length_substring_0 by apply word_run_le.
Qed.

Lemma word_run_name name rest :
  all_word name = true →
  regexp.word_run (name +:+ String "}"%char rest) = String.length name.
Proof.
  induction name as [|c name IH]; [done|]. cbn [all_word].
  intros [Hc Hname]%andb_prop. rewrite append_cons. cbn.
  by rewrite Hc, IH.
Qed.

Lemma get_after_name name d rest :
  String.get (String.length name) (name +:+ String d rest) = Some d.
Proof. induction name as [|c name IH]; [done|]. by rewrite append_cons. Qed.

Lemma marker_at_marker name rest :
  all_word name = true →
  regexp.marker_at (String "{"%char (name +:+ String "}"%char rest))
  = Some (String.length name + 2).
Proof.
  intros Hname. unfold regexp.marker_at.
  by rewrite word_run_name, get_after_name.
Qed.

(** The texts of a match and of its group, read in the whole path. *)
Lemma marker_texts pre name rest :
  let whole := pre +:+ String "{"%char (name +:+ String "}"%char rest) in
  let pos := String.length pre in
  let len := String.length name + 2 in
  slice whole pos (pos + len) = "{" +:+ name +:+ "}"
  ∧ slice whole (S pos) (pos + len - 1) = name.
Proof.
  cbv zeta. unfold slice. split.
  - replace (String.length pre + (String.length name + 2)
             - String.length pre) with (S (String.length name + 1)) by lia.
    rewrite <-(Nat.add_0_r (String.length pre)) at 1.
    rewrite substring_skip. cbn [String.substring].
    rewrite substring_0_app. by destruct rest.
  - replace (String.length pre + (String.length name + 2) - 1
             - S (String.length pre)) with (String.length name) by lia.
    replace (S (String.length pre)) with (String.length pre + 1) by lia.
    rewrite substring_skip. cbn [String.substring].
    apply substring_0_pre.
Qed.

Lemma marker_scan_well_formed s : ∀ pre skip,
  Forall (well_formed_match (pre +:+ s))
         (regexp.marker_scan (String.length pre) skip s).
Proof.
  induction s as [|c s IH]; intros pre skip; [constructor|].
  assert (Hnext : ∀ k,
            Forall (well_formed_match (pre +:+ String c s))
                   (regexp.marker_scan (S (String.length pre)) k s)).
  { intros k. specialize (IH (pre +:+ String c "") k).
    rewrite append_assoc, length_append in IH. cbn in IH.
    by rewrite Nat.add_1_r in IH. }
  cbn [regexp.marker_scan]. destruct skip as [|k]; [|apply Hnext].
  destruct (regexp.marker_at (String c s)) as [len|] eqn:Hat; [|apply Hnext].
  constructor; [|apply Hnext].
  apply marker_at_inv in Hat as (name & rest & Hs & -> & Hname).
  exists name. split; [done|]. rewrite Hs. cbn [fst snd fmap list_fmap].
  destruct (marker_texts pre name rest) as [-> ->]. done.
Qed.

(** X9: every match the parser finds has the two elements [HandleFunc]
    reads, the marker and its name; the marker is the name in braces and
    the name is made of word characters. *)
Theorem parser_matches_well_formed path :
  Forall (λ m, ∃ name,
            m = ["{" +:+ name +:+ "}"; name] ∧ all_word name = true)
         (getBuiltRouteParams path).2.
Proof.
  unfold getBuiltRouteParams, regexp.FindAllStringSubmatch. cbn [snd].
  apply Forall_fmap.
  pose proof (marker_scan_well_formed path "" 0) as Hscan.
  eapply Forall_impl; [exact Hscan|].
  intros m (name & Hname & Hm). exists name. by split.
Qed.

Lemma marker_scan_no_brace s : ∀ pos,
  has_char "{"%char s = false → regexp.marker_scan pos 0 s = [].
Proof.
  induction s as [|c s IH]; intros pos Hno; [done|].
  cbn in Hno. apply orb_false_elim in Hno as [Hc Hs].
  cbn [regexp.marker_scan].
  assert (regexp.marker_at (String c s) = None) as ->; [|by apply IH].
  unfold regexp.marker_at.
  destruct (Ascii.eqb_spec "{"%char c) as [<-|Hne]; [done|].
  by destruct c as [[] [] [] [] [] [] [] []].
Qed.

(** X10: a path without an opening brace has no marker: [HandleFunc]
    treats it as a static route. *)
Theorem path_without_brace_is_static path :
  has_char "{"%char path = false → (getBuiltRouteParams path).2 = [].
Proof.
  intros Hno. unfold getBuiltRouteParams, regexp.FindAllStringSubmatch.
  cbn [snd]. change (regexp.FindAllStringSubmatchIndex rgx path)
    with (regexp.marker_scan 0 0 path).
  by rewrite marker_scan_no_brace.
Qed.

Lemma path_without_brace_is_static_witness :
  (getBuiltRouteParams "/users/list").2 = [].
Proof. apply (path_without_brace_is_static "/users/list"). reflexivity. Defined.

Lemma has_char_app c s t :
  has_char c (s +:+ t) = has_char c s || has_char c t.
Proof.
  induction s as [|d s IH]; [done|]. rewrite append_cons. cbn.
  by rewrite IH, orb_assoc.
Qed.

Lemma marker_scan_skip_pre pre s : ∀ pos,
  has_char "{"%char pre = false →
  regexp.marker_scan pos 0 (pre +:+ s)
  = regexp.marker_scan (pos + String.length pre) 0 s.
Proof.
  induction pre as [|c pre IH]; intros pos Hno.
  { cbn. by rewrite Nat.add_0_r. }
  cbn in Hno. apply orb_false_elim in Hno as [Hc Hpre].
  rewrite append_cons. cbn [regexp.marker_scan].
  assert (regexp.marker_at (String c (pre +:+ s)) = None) as ->.
  { unfold regexp.marker_at.
    destruct (Ascii.eqb_spec "{"%char c) as [<-|Hne]; [done|].
    by destruct c as [[] [] [] [] [] [] [] []]. }
  rewrite IH by done. f_equal. cbn. lia.
Qed.

Lemma Split_loop_head s matches : ∀ beg fin x strs,
  regexp.Split_loop s matches beg fin (x :: strs) !! 0 = Some x.
Proof.
  induction matches as [|[m0 m1] matches IH]; intros beg fin x strs;
    cbn [regexp.Split_loop].
  - by destruct (fin =? String.length s).
  - destruct (m1 =? 0); [apply IH|]. cbn [app]. apply IH.
Qed.

Lemma start_scan_cons pos bol c s :
  regexp.start_scan pos bol (String c s)
  = if bol && Ascii.eqb c "/"%char
    then ((pos, S pos), [(pos, S pos)])
           :: regexp.start_scan (S pos) (Ascii.eqb c "010"%char) s
    else regexp.start_scan (S pos) (Ascii.eqb c "010"%char) s.
Proof. done. Qed.

Lemma end_scan_cons pos c s :
  regexp.end_scan pos (String c s)
  = if Ascii.eqb c "/"%char
       && match s with
          | EmptyString => true
          | String d _ => Ascii.eqb d "010"%char
          end
    then ((pos, S pos), [(pos, S pos)]) :: regexp.end_scan (S pos) s
    else regexp.end_scan (S pos) s.
Proof. done. Qed.

Lemma start_scan_no_newline s : ∀ pos,
  has_char "010"%char s = false → regexp.start_scan pos false s = [].
Proof.
  induction s as [|c s IH]; intros pos Hno; [done|].
  cbn [has_char] in Hno. apply orb_false_elim in Hno as [Hc Hs].
  rewrite start_scan_cons. cbn [andb].
  rewrite Ascii.eqb_sym, Hc. by apply IH.
Qed.

Lemma end_scan_trailing_slash k : ∀ pos,
  has_char "010"%char k = false →
  regexp.end_scan pos (k +:+ "/")
  = [((pos + String.length k, S (pos + String.length k)),
      [(pos + String.length k, S (pos + String.length k))])].
Proof.
  induction k as [|c k IH]; intros pos Hno.
  { cbn. by rewrite Nat.add_0_r. }
  cbn [has_char] in Hno. apply orb_false_elim in Hno as [Hc Hk].
  rewrite append_cons, end_scan_cons.
  assert (match k +:+ "/" with
          | EmptyString => true
          | String d _ => Ascii.eqb d "010"%char
          end = false) as ->.
  { destruct k as [|d k]; [done|]. rewrite append_cons.
    cbn [has_char] in Hk. apply orb_false_elim in Hk as [Hd _].
    by rewrite Ascii.eqb_sym. }
  rewrite andb_false_r, IH by done. cbn [String.length].
  by rewrite Nat.add_succ_comm.
Qed.

Lemma substring_none n : ∀ s, String.substring n 0 s = "".
Proof. induction n as [|n IH]; intros [|c s]; cbn; auto. Qed.

(** X11: the parser on a path of the usual shape, a slash, a prefix
    without brace and line feed, a slash, a marker with a name of word
    characters, and any rest: the key is the prefix, without the two
    slashes around it, and the first match is the marker with its name. *)
Theorem parser_prefix_between_slashes k name rest :
  has_char "{"%char k = false →
  has_char "010"%char k = false →
  all_word name = true →
  let path := "/" +:+ k +:+ "/{" +:+ name +:+ "}" +:+ rest in
  (getBuiltRouteParams path).1 = k
  ∧ head (getBuiltRouteParams path).2 = Some ["{" +:+ name +:+ "}"; name].
Proof.
  intros Hbrace Hline Hname path.
  set (pre := String "/"%char (k +:+ "/")).
  set (marker := String "{"%char (name +:+ String "}"%char rest)).
  assert (Hpath : path = pre +:+ marker).
  { transitivity (String "/"%char (k +:+ ("/" +:+ marker))); [done|].
    by rewrite <-append_assoc. }
  assert (Hpre : has_char "{"%char pre = false).
  { subst pre. cbn. by rewrite has_char_app, Hbrace. }
  assert (Hscan : regexp.marker_scan 0 0 path
                  = ((String.length pre,
                      String.length pre + (String.length name + 2)),
                     [(S (String.length pre),
                       String.length pre + (String.length name + 2) - 1)])
                    :: regexp.marker_scan (S (String.length pre))
                         (String.length name + 2 - 1)
                         (name +:+ String "}"%char rest)).
  { rewrite Hpath, marker_scan_skip_pre by done. subst marker.
    cbn [regexp.marker_scan Nat.add]. by rewrite marker_at_marker. }
  destruct (marker_texts pre name rest) as [Hwhole Hgroup].
  cbv zeta in Hwhole, Hgroup. fold marker in Hwhole, Hgroup.
  rewrite <-Hpath in Hwhole, Hgroup.
  unfold getBuiltRouteParams. cbn [fst snd]. split.
  - assert (regexp.Split rgx path !! 0 = Some pre) as ->.
    { unfold regexp.Split.
      assert ((String.length path =? 0) = false) as ->.
      { rewrite Hpath. by subst pre. }
      rewrite andb_false_r. unfold regexp.FindAllStringIndex.
      change (regexp.FindAllStringSubmatchIndex rgx path)
        with (regexp.marker_scan 0 0 path).
      rewrite Hscan. cbn [fmap list_fmap fst regexp.Split_loop].
      assert ((String.length pre + (String.length name + 2) =? 0) = false)
        as -> by (apply Nat.eqb_neq; lia).
      cbn [app]. rewrite Split_loop_head. f_equal.
      unfold slice. rewrite Hpath, Nat.sub_0_r. apply substring_0_pre. }
    change (default "" (Some pre)) with pre.
    assert (regexp.ReplaceAllString rgxStart pre "" = k +:+ "/") as ->.
    { unfold regexp.ReplaceAllString, regexp.FindAllStringIndex. subst pre.
      cbn [rgxStart regexp.FindAllStringSubmatchIndex].
      rewrite start_scan_cons.
      change (true && Ascii.eqb "/" "/")%char with true.
      change (Ascii.eqb "/" "010")%char with false. cbv iota.
      rewrite start_scan_no_newline
        by (rewrite has_char_app, Hline; done).
      cbn [fmap list_fmap fst regexp.ReplaceAll_loop Nat.ltb Nat.leb orb].
      unfold slice. cbn [String.length Nat.sub String.substring].
      rewrite Nat.sub_0_r, substring_0_all. done. }
    unfold regexp.ReplaceAllString, regexp.FindAllStringIndex.
    cbn [rgxEnd regexp.FindAllStringSubmatchIndex].
    rewrite end_scan_trailing_slash by done.
    cbn [fmap list_fmap fst regexp.ReplaceAll_loop Nat.add Nat.ltb Nat.leb
              orb].
    unfold slice. rewrite Nat.sub_0_r, substring_0_pre.
    rewrite length_append. cbn [String.length].
    replace (String.length k + 1 - S (String.length k)) with 0 by lia.
    by rewrite substring_none, !append_nil_r.
  - unfold regexp.FindAllStringSubmatch.
    change (regexp.FindAllStringSubmatchIndex rgx path)
      with (regexp.marker_scan 0 0 path).
    rewrite Hscan. cbn [fmap list_fmap head fst snd].
    by rewrite Hwhole, Hgroup.
Qed.

Lemma parser_prefix_between_slashes_witness :
  (getBuiltRouteParams "/api/users/{id}/posts/{postId}").1 = "api/users"
  ∧ head (getBuiltRouteParams "/api/users/{id}/posts/{postId}").2
    = Some ["{id}"; "id"].
Proof.
  apply (parser_prefix_between_slashes "api/users" "id" "/posts/{postId}");
    reflexivity.
Defined.

(* ===================================================================== *)
(** ** More on the matcher and on resolution                               *)
(* ===================================================================== *)

Section MatcherPanics.

Context (MustCompile : string → option regexp.Regexp) (path : string).

Lemma route_check_uncompiled route :
  MustCompile (BuiltRoute.KeyRoute route) = None →
  ∃ msg, route_check MustCompile path route = Panic msg.
Proof. intros Hkey. unfold route_check. rewrite Hkey. by eexists. Qed.

Lemma loop_panics rs :
  (∃ route, route ∈ rs ∧ MustCompile (BuiltRoute.KeyRoute route) = None) →
  ∀ idx sel params,
    ∃ msg, getRequestParams_loop MustCompile path idx rs sel params
           = Panic msg.
Proof.
  induction rs as [|r rs IH]; intros (route & Hin & Hkey) idx sel params.
  { by apply elem_of_nil in Hin. }
  rewrite loop_cons. apply elem_of_cons in Hin as [<-|Hin].
  - destruct (route_check_uncompiled route Hkey) as [msg ->]. by eexists.
  - destruct (route_check MustCompile path r) as [[segs|]|msg];
      [apply IH; by exists route..|by eexists].
Qed.

End MatcherPanics.

(** X12: one template whose key does not compile makes the matcher panic
    on every request that reaches it, whatever the path and the other
    templates; the router and the mux stay as they were. *)
Theorem uncompilable_key_panics MustCompile rg1 rg2 w r σ route :
  route ∈ built (mainRouter σ) →
  MustCompile (BuiltRoute.KeyRoute route) = None →
  ∃ msg, redirectBuiltRoute MustCompile rg1 rg2 w r σ = (Panic msg, σ).
Proof.
  intros Hin Hkey. unfold redirectBuiltRoute, bind, getRequestParams.
  destruct (loop_panics MustCompile (http.URL_Path r)
              (built (mainRouter σ)) (ex_intro _ route (conj Hin Hkey))
              0 None ∅) as [msg ->].
  by exists msg.
Qed.

Lemma uncompilable_key_panics_witness :
  BuiltRoute.KeyRoute <$> built (mainRouter unclosed_router) = ["users"; "a("]
  ∧ ∃ msg,
      redirectBuiltRoute group_compile key_order key_order http.NewRecorder
        (new_request "GET" "/users/42") unclosed_router
      = (Panic msg, unclosed_router).
Proof.
  split; [reflexivity|].
  apply (uncompilable_key_panics group_compile key_order key_order
           http.NewRecorder (new_request "GET" "/users/42") unclosed_router
           (new_template "/a(/{id}" (show_var "id") ["GET"])).
  - apply list_elem_of_lookup. by exists 1.
  - reflexivity.
Defined.

Lemma getRequestParams_state MustCompile path σ :
  (getRequestParams MustCompile path σ).2 = σ.
Proof. unfold getRequestParams. by destruct (getRequestParams_loop _ _ _ _ _ _). Qed.

(** A request that selects no template, or on which the matcher panics,
    leaves the state as it was. *)
Lemma redirectBuiltRoute_unselected MustCompile rg1 rg2 w r σ :
  (∀ i route params,
     (getRequestParams MustCompile (http.URL_Path r) σ).1
     ≠ Done (Some (i, route), params)) →
  (redirectBuiltRoute MustCompile rg1 rg2 w r σ).2 = σ.
Proof.
  intros Hno. unfold redirectBuiltRoute, bind.
  pose proof (getRequestParams_state MustCompile (http.URL_Path r) σ) as Hσ.
  destruct (getRequestParams MustCompile (http.URL_Path r) σ)
    as [[[[[i route]|] params]|msg] σ0]; cbn in Hσ; subst; [|done..].
  by destruct (Hno i route params).
Qed.

(** Either way of a request through [redirectBuiltRoute]. *)
Lemma redirectBuiltRoute_cases MustCompile rg1 rg2 w r σ :
  (redirectBuiltRoute MustCompile rg1 rg2 w r σ).2 = σ
  ∨ ∃ i route params,
      getRequestParams MustCompile (http.URL_Path r) σ
      = (Done (Some (i, route), params), σ).
Proof.
  pose proof (getRequestParams_state MustCompile (http.URL_Path r) σ) as Hσ.
  destruct (getRequestParams MustCompile (http.URL_Path r) σ)
    as [[[[[i route]|] params]|msg] σ0] eqn:Hget; cbn in Hσ; subst.
  - right. by exists i, route, params.
  - left. apply redirectBuiltRoute_unselected. intros. by rewrite Hget.
  - left. apply redirectBuiltRoute_unselected. intros. by rewrite Hget.
Qed.

Lemma Forall2_insert_refl {A} (R : A → A → Prop) l i x y :
  (∀ a, R a a) → l !! i = Some x → R x y → Forall2 R l (<[i := y]> l).
Proof.
  intros Hrefl. revert i. induction l as [|a l IH]; intros [|i] Hi Hxy;
    simplify_eq/=.
  - constructor; [done|]. by apply Forall_Forall2_diag, Forall_true.
  - constructor; [done|]. by eapply IH.
Qed.

(** X13: a request never adds, removes or reorders a template, and never
    changes the path, handler, key, methods or variable names of one: at
    most the values of the variables of the selected template change. *)
Theorem redirectBuiltRoute_keeps_templates MustCompile rg1 rg2 w r σ :
  Forall2 same_shape
          (built (mainRouter σ))
          (built (mainRouter (redirectBuiltRoute MustCompile rg1 rg2 w r σ).2)).
Proof.
  assert (Hrefl : ∀ a, same_shape a a) by (by intros a; repeat split).
  destruct (redirectBuiltRoute_cases MustCompile rg1 rg2 w r σ)
    as [->|(i & route & params & Hget)].
  { by apply Forall_Forall2_diag, Forall_true. }
  destruct (redirectBuiltRoute_tables MustCompile rg1 rg2 w r σ i route
              params Hget) as [_ ->].
  apply getRequestParams_selected in Hget as (_ & Hlk & _).
  eapply Forall2_insert_refl; [done..|].
  repeat split. cbn. by rewrite bind_values_names.
Qed.

Lemma createBuiltRoute_mux rg path h ms params σ :
  DefaultServeMux (createBuiltRoute rg path h ms params σ).2
  = DefaultServeMux σ
  ∨ ∃ g,
      DefaultServeMux (createBuiltRoute rg path h ms params σ).2
      = DefaultServeMux σ
          ++ [((createBuiltRoute_loop rg path params).1, Serve g)].
Proof.
  rewrite createBuiltRoute_unfold. cbv zeta.
  destruct (forallb checkMethod ms); [|by left].
  unfold http_HandleFunc, http_Handle. cbn [Route.Path].
  destruct (String.eqb _ ""); [by left|].
  cbn [DefaultServeMux set_routes].
  destruct (existsb _ _); [by left|]. right. by eexists.
Qed.

(** X14: a request leaves every entry of the static table and of the mux
    in place, and adds at most one entry at the end of each. *)
Theorem redirectBuiltRoute_only_appends MustCompile rg1 rg2 w r σ :
  let σ' := (redirectBuiltRoute MustCompile rg1 rg2 w r σ).2 in
  (routes (mainRouter σ') = routes (mainRouter σ)
   ∨ ∃ entry, routes (mainRouter σ') = routes (mainRouter σ) ++ [entry])
  ∧ (DefaultServeMux σ' = DefaultServeMux σ
     ∨ ∃ pattern g,
         DefaultServeMux σ' = DefaultServeMux σ ++ [(pattern, Serve g)]).
Proof.
  cbv zeta.
  destruct (redirectBuiltRoute_cases MustCompile rg1 rg2 w r σ)
    as [->|(i & route & params & Hget)]; [by split; left|].
  split.
  - right. eexists.
    by destruct (redirectBuiltRoute_tables MustCompile rg1 rg2 w r σ i route
                   params Hget) as [-> _].
  - rewrite (redirectBuiltRoute_selected MustCompile rg1 rg2 w r σ i route
               params Hget).
    set (σa := set_built σ _).
    destruct (createBuiltRoute_mux rg2 (BuiltRoute.TempPath route)
                (BuiltRoute.Handler route) (BuiltRoute.Methods route)
                (bind_values (BuiltRoute.Var route) params) σa)
      as [Hmux|[g Hmux]];
      destruct (createBuiltRoute _ _ _ _ _ σa) as [[[]|msg] σ'];
      cbn [snd] in *; rewrite Hmux; [by left..|right|right]; by eexists _, g.
Qed.

Lemma createBuiltRoute_loop_params rg path var :
  (createBuiltRoute_loop rg path var).2 = (rg var).*2.
Proof.
  unfold createBuiltRoute_loop.
  assert (∀ (l : list (nat * Variable_.t)) builtPath allParams,
            (foldl (λ '(builtPath, allParams) '(_, param),
                      (gostrings.Replace builtPath
                         ("{" +:+ Variable_.Name param +:+ "}")
                         (Variable_.Value param),
                       allParams ++ [param]))
                   (builtPath, allParams) l).2
            = allParams ++ l.*2) as Hfold.
  { induction l as [|[k param] l IH]; intros builtPath allParams.
    - cbn. by rewrite app_nil_r.
    - cbn [foldl]. rewrite IH. cbn. by rewrite <-app_assoc. }
  by rewrite Hfold.
Qed.

Lemma WithContext_same r : http.WithContext r (http.Context r) = r.
Proof. by destruct r. Qed.

Lemma setRouteParams_nil next w r : setRouteParams next [] w r = next w r.
Proof. unfold setRouteParams. cbn. by rewrite WithContext_same. Qed.

(** X15: the first resolution of a concrete path with allowed methods
    puts on the mux, under the concrete path, a handler that answers the
    request as the resolution itself answers it (the two range loops
    visiting the variables in the same order). *)
Theorem resolution_caches_its_answer
        MustCompile rg w r σ i route params :
  getRequestParams MustCompile (http.URL_Path r) σ
  = (Done (Some (i, route), params), σ) →
  forallb checkMethod (BuiltRoute.Methods route) = true →
  mux_accepts σ
    (createBuiltRoute_loop rg (BuiltRoute.TempPath route)
       (bind_values (BuiltRoute.Var route) params)).1 = true →
  ∃ g σ',
    redirectBuiltRoute MustCompile rg rg w r σ = (Done (g w r), σ')
    ∧ DefaultServeMux σ'
      = DefaultServeMux σ
          ++ [((createBuiltRoute_loop rg (BuiltRoute.TempPath route)
                  (bind_values (BuiltRoute.Var route) params)).1, Serve g)].
Proof.
  intros Hget Hms Hmux.
  rewrite (redirectBuiltRoute_selected MustCompile rg rg w r σ i route
             params Hget).
  rewrite createBuiltRoute_unfold. cbv zeta. rewrite Hms.
  cbn [Route.Path Route.Params]. unfold http_HandleFunc.
  rewrite mux_accepts_spec by done.
  rewrite createBuiltRoute_loop_params.
  set (l := (rg (bind_values (BuiltRoute.Var route) params)).*2).
  exists (if 0 <? length l
          then setRouteParams
                 (gateMethod (BuiltRoute.Handler route)
                             (BuiltRoute.Methods route)) l
          else gateMethod (BuiltRoute.Handler route)
                          (BuiltRoute.Methods route)).
  eexists. split.
  - f_equal. f_equal. destruct l as [|param l]; [|done].
    cbn [length Nat.ltb Nat.leb]. by rewrite setRouteParams_nil.
  - reflexivity.
Qed.

Lemma resolution_caches_its_answer_witness :
  ∃ g σ',
    resolve "GET" "/users/42" users_router
    = (Done (g http.NewRecorder (new_request "GET" "/users/42")), σ')
    ∧ DefaultServeMux σ'
      = DefaultServeMux users_router ++ [("/users/42", Serve g)].
Proof.
  exact (resolution_caches_its_answer literal_compile key_order
           http.NewRecorder (new_request "GET" "/users/42") users_router 0
           (new_template "/users/{id}" (show_var "id") ["GET"])
           {[0 := "42"]} eq_refl eq_refl eq_refl).
Defined.

(** X16: a template declared with a method outside the allowed set is
    resolved and served through its gate all the same, but its concrete
    path never reaches the mux: the mux stays as it was, so the next
    request for the path is resolved again, and the static table grows by
    one entry each time. *)
Theorem disallowed_method_template_uncached
        MustCompile rg1 rg2 w r σ i route params :
  getRequestParams MustCompile (http.URL_Path r) σ
  = (Done (Some (i, route), params), σ) →
  forallb checkMethod (BuiltRoute.Methods route) = false →
  ∃ σ' entry,
    redirectBuiltRoute MustCompile rg1 rg2 w r σ
    = (Done (setRouteParams
               (gateMethod (BuiltRoute.Handler route)
                           (BuiltRoute.Methods route))
               (rg1 (bind_values (BuiltRoute.Var route) params)).*2 w r), σ')
    ∧ DefaultServeMux σ' = DefaultServeMux σ
    ∧ routes (mainRouter σ') = routes (mainRouter σ) ++ [entry].
Proof.
  intros Hget Hms.
  rewrite (redirectBuiltRoute_selected MustCompile rg1 rg2 w r σ i route
             params Hget).
  rewrite createBuiltRoute_unfold. cbv zeta. rewrite Hms.
  by eexists _, _.
Qed.

Lemma disallowed_method_template_uncached_witness :
  ∃ σ' entry,
    resolve "PATCH" "/users/42" patch_router
    = (Done (setRouteParams
               (gateMethod (show_var "id") ["PATCH"])
               (key_order
                  (bind_values
                     (BuiltRoute.Var
                        (new_template "/users/{id}" (show_var "id")
                           ["PATCH"]))
                     {[0 := "42"]})).*2
               http.NewRecorder (new_request "PATCH" "/users/42")), σ')
    ∧ DefaultServeMux σ' = DefaultServeMux patch_router
    ∧ routes (mainRouter σ') = routes (mainRouter patch_router) ++ [entry].
Proof.
  exact (disallowed_method_template_uncached literal_compile key_order
           key_order http.NewRecorder (new_request "PATCH" "/users/42")
           patch_router 0
           (new_template "/users/{id}" (show_var "id") ["PATCH"])
           {[0 := "42"]} eq_refl eq_refl).
Defined.

(** X17: the values a request binds stay in the router: after the
    request the selected template holds, for each declared name, a
    variable with that name and the segment of this request as value,
    whether or not the registration that follows panics. *)
Theorem resolution_overwrites_values
        MustCompile rg1 rg2 w r σ i route params names :
  getRequestParams MustCompile (http.URL_Path r) σ
  = (Done (Some (i, route), params), σ) →
  Variable_.Name <$> BuiltRoute.Var route = map_seq 0 names →
  ∃ re rest route',
    MustCompile (BuiltRoute.KeyRoute route) = Some re
    ∧ regexp.Split re (http.URL_Path r) !! 1 = Some rest
    ∧ built (mainRouter (redirectBuiltRoute MustCompile rg1 rg2 w r σ).2) !! i
      = Some route'
    ∧ same_shape route route'
    ∧ ∀ k name,
        names !! k = Some name →
        ∃ seg,
          gostrings.Split rest "/" !! S k = Some seg
          ∧ BuiltRoute.Var route' !! k
            = Some {| Variable_.Name := name; Variable_.Value := seg |}.
Proof.
  intros Hget Hdecl.
  pose proof (getRequestParams_selected _ _ _ _ _ _ _ Hget)
    as (_ & Hlk & segs & pre & Hcheck & Hparams).
  apply route_check_Some
    in Hcheck as (re & rest & Hre & _ & Hsplit & -> & Hlen).
  rewrite (declared_size _ _ Hdecl) in Hlen.
  destruct (redirectBuiltRoute_tables MustCompile rg1 rg2 w r σ i route
              params Hget) as [_ Hbuilt].
  exists re, rest,
    (BuiltRoute.with_Var route (bind_values (BuiltRoute.Var route) params)).
  split_and!; [done..| | |].
  - rewrite Hbuilt. apply list_lookup_insert_eq. by eapply lookup_lt_Some.
  - repeat split. cbn. by rewrite bind_values_names.
  - intros k name Hk.
    destruct (lookup_lt_is_Some_2 (gostrings.Split rest "/") (S k))
      as [seg Hseg].
    { apply lookup_lt_Some in Hk. lia. }
    exists seg. split; [done|].
    destruct (declared_lookup_inv _ _ _ _ Hdecl Hk) as (v0 & Hv0 & Hname).
    cbn [BuiltRoute.Var BuiltRoute.with_Var].
    rewrite bind_values_lookup, Hv0. cbn.
    rewrite Hname, Hparams, params_loop_segment, Hseg; [done|].
    by eapply lookup_lt_Some.
Qed.

Lemma resolution_overwrites_values_witness :
  ∃ route',
    built (mainRouter (resolve "GET" "/users/42" users_router).2) !! 0
    = Some route'
    ∧ BuiltRoute.Var route' !! 0
      = Some {| Variable_.Name := "id"; Variable_.Value := "42" |}.
Proof.
  destruct (resolution_overwrites_values literal_compile key_order key_order
              http.NewRecorder (new_request "GET" "/users/42") users_router 0
              (new_template "/users/{id}" (show_var "id") ["GET"])
              {[0 := "42"]} ["id"] eq_refl eq_refl)
    as (re & rest & route' & Hre & Hrest & Hlk & _ & Hvalues).
  exists route'. split; [exact Hlk|].
  destruct (Hvalues 0 "id" eq_refl) as (seg & Hseg & ->).
  injection Hre as <-. vm_compute in Hrest. injection Hrest as <-.
  vm_compute in Hseg. by injection Hseg as <-.
Defined.

(** X18: when the concrete path is on the mux already and the methods are
    allowed, the request panics in [http.HandleFunc] after the route was
    appended: no answer is written, the mux is as it was, and the static
    table has one entry more. *)
Theorem known_concrete_path_panics
        MustCompile rg1 rg2 w r σ i route params :
  getRequestParams MustCompile (http.URL_Path r) σ
  = (Done (Some (i, route), params), σ) →
  forallb checkMethod (BuiltRoute.Methods route) = true →
  let builtPath :=
    (createBuiltRoute_loop rg2 (BuiltRoute.TempPath route)
       (bind_values (BuiltRoute.Var route) params)).1 in
  builtPath ≠ "" →
  existsb (String.eqb builtPath) (DefaultServeMux σ).*1 = true →
  ∃ σ' entry,
    redirectBuiltRoute MustCompile rg1 rg2 w r σ
    = (Panic ("http: multiple registrations for " +:+ builtPath), σ')
    ∧ DefaultServeMux σ' = DefaultServeMux σ
    ∧ routes (mainRouter σ') = routes (mainRouter σ) ++ [entry]
    ∧ Route.Path entry = builtPath.
Proof.
  intros Hget Hms builtPath Hne Hknown.
  rewrite (redirectBuiltRoute_selected MustCompile rg1 rg2 w r σ i route
             params Hget).
  rewrite createBuiltRoute_unfold. cbv zeta. rewrite Hms.
  cbn [Route.Path]. unfold http_HandleFunc.
  rewrite mux_known_panics by done.
  by eexists _, _.
Qed.

Lemma known_concrete_path_panics_witness :
  let σ1 := (resolve "GET" "/v1/users/42" users_router).2 in
  ∃ σ2,
    resolve "GET" "/v1/users/42" σ1
    = (Panic "http: multiple registrations for /users/42", σ2)
    ∧ DefaultServeMux σ2 = DefaultServeMux σ1
    ∧ paths σ2 = ["/users/42"; "/users/42"].
Proof.
  cbv zeta.
  destruct (known_concrete_path_panics literal_compile key_order key_order
              http.NewRecorder (new_request "GET" "/v1/users/42")
              (resolve "GET" "/v1/users/42" users_router).2 0
              (BuiltRoute.with_Var
                 (new_template "/users/{id}" (show_var "id") ["GET"])
                 (bind_values
                    (BuiltRoute.Var
                       (new_template "/users/{id}" (show_var "id") ["GET"]))
                    {[0 := "42"]}))
              {[0 := "42"]})
    as (σ2 & entry & Hres & Hmux & Hroutes & Hpath).
  - reflexivity.
  - reflexivity.
  - by vm_compute.
  - reflexivity.
  - exists σ2. split; [exact Hres|]. split; [exact Hmux|].
    unfold paths. rewrite Hroutes, fmap_app. cbn. by rewrite Hpath.
Defined.

(* ===================================================================== *)
(** ** The singleton router                                                *)
(* ===================================================================== *)

Lemma http_Handle_cases pattern h σ :
  pattern ≠ "" →
  http_Handle pattern h σ
  = if existsb (String.eqb pattern) (DefaultServeMux σ).*1
    then (Panic ("http: multiple registrations for " +:+ pattern), σ)
    else (Done tt, set_mux σ (DefaultServeMux σ ++ [(pattern, h)])).
Proof. unfold http_Handle. intros Hne%String.eqb_neq. by rewrite Hne. Qed.

(** X19: [NewRouter] is a singleton constructor.  A call that returns has
    set [mainRouter] to the router it returns, and every later call
    returns this router again and touches neither the router nor the mux.
    The first call, made while neither pattern is on the mux, puts the
    health route and the catch-all on it, in this order, and returns an
    empty router. *)
Theorem NewRouter_call_singleton π router π' :
  NewRouter_call π = (Done router, π') →
  instance π' = Some router
  ∧ NewRouter_call π' = (Done router, π')
  ∧ (instance π = None →
     routes router = [] ∧ built router = []
     ∧ ServeMux π'
       = ServeMux π ++ [("/health", Serve healthApplication); ("/", Redirect)]).
Proof.
  unfold NewRouter_call. destruct (instance π) as [known|] eqn:Hinst.
  { intros [= -> ->]. by rewrite Hinst. }
  unfold bind, http_HandleFunc. rewrite http_Handle_cases by done.
  cbn [DefaultServeMux].
  destruct (existsb (String.eqb "/health") (ServeMux π).*1); [done|].
  rewrite http_Handle_cases by done. cbn [DefaultServeMux set_mux].
  destruct (existsb (String.eqb "/") _); [done|].
  cbn [mainRouter DefaultServeMux set_mux]. intros [= <- <-].
  cbn [instance ServeMux routes built]. split_and!; try done.
  by rewrite <-app_assoc.
Qed.

Lemma NewRouter_call_singleton_witness :
  let π0 := {| instance := None; ServeMux := [] |} in
  ∃ router π1,
    NewRouter_call π0 = (Done router, π1)
    ∧ NewRouter_call π1 = (Done router, π1)
    ∧ world_of router π1 = NewRouter.
Proof.
  cbv zeta. eexists _, _. split; [reflexivity|]. split; [|reflexivity].
  apply (NewRouter_call_singleton {| instance := None; ServeMux := [] |}).
  reflexivity.
Defined.

(* ===================================================================== *)
(** ** The order of the range loops                                        *)
(* ===================================================================== *)

Lemma key_order_valid : valid_range key_order.
Proof. by intros m. Qed.

Lemma reverse_order_valid : valid_range reverse_order.
Proof. intros m. apply reverse_Permutation. Qed.

(** X20: the concrete path a resolution registers is not fixed by the
    template and the request: when a segment of the request is itself a
    marker of the template, two orders in which the range loop of
    [createBuiltRoute] may visit the variables give two different
    paths. *)
Theorem concrete_path_depends_on_range_order :
  ∃ (h : http.HandlerFunc) (path : string) (r : http.Request),
    let σ := registered path h ["GET"] NewRouter in
    valid_range key_order ∧ valid_range reverse_order
    ∧ paths (redirectBuiltRoute literal_compile key_order key_order
               http.NewRecorder r σ).2
      ≠ paths (redirectBuiltRoute literal_compile key_order reverse_order
                 http.NewRecorder r σ).2.
Proof.
  exists (say "t"), "/t/{a}/{b}", (new_request "GET" "/t/{b}/x").
  cbv zeta. split; [apply key_order_valid|].
  split; [apply reverse_order_valid|].
  replace (paths _) with ["/t/{b}/x"] by (by vm_compute).
  replace (paths _) with ["/t/x/x"] by (by vm_compute).
  done.
Qed.

(* ===================================================================== *)
(** ** Matching by containment                                             *)
(* ===================================================================== *)

Section Containment.

Context (c : ascii) (key' : string).
Abbreviation key := (String c key').








End Containment.



(* ===================================================================== *)
(** ** More on registration                                                *)
(* ===================================================================== *)

(** X22: what [HandleFunc] stores for a path with markers: one template
    more, at the end of [built], with the path as given, the key of the
    parser, and the names of the markers at the keys 0, 1, ... in the
    order of the markers, each with the empty value. *)
Theorem HandleFunc_declares_in_order path h ms σ :
  (getBuiltRouteParams path).2 ≠ [] →
  ∃ route,
    built (mainRouter (HandleFunc path h ms σ).2)
    = built (mainRouter σ) ++ [route]
    ∧ BuiltRoute.TempPath route = path
    ∧ BuiltRoute.KeyRoute route = (getBuiltRouteParams path).1
    ∧ BuiltRoute.Var route
      = map_seq 0 ((λ name, {| Variable_.Name := default "" (name !! 1);
                               Variable_.Value := "" |})
                     <$> (getBuiltRouteParams path).2)
    ∧ size (BuiltRoute.Var route) = length (getBuiltRouteParams path).2.
Proof.
  intros Hvalues. exists (new_template path h ms).
  unfold HandleFunc, new_template.
  destruct (getBuiltRouteParams path) as [key [|name values]]; [done|].
  cbn [fst snd BuiltRoute.TempPath BuiltRoute.KeyRoute BuiltRoute.Var].
  split_and!; try done.
  - by rewrite valuesList_loop_seq, (right_id_L ∅ (∪)).
  - rewrite valuesList_loop_seq, (right_id_L ∅ (∪)).
    rewrite <-(size_dom (D := gset nat)), dom_seq_L, size_set_seq.
    by rewrite length_fmap.
Qed.

Lemma HandleFunc_declares_in_order_witness :
  ∃ route,
    built (mainRouter
             (HandleFunc "/users/{id}/posts/{postId}" (say "post") ["GET"]
                NewRouter).2) = [route]
    ∧ BuiltRoute.KeyRoute route = "users"
    ∧ Variable_.Name <$> BuiltRoute.Var route = map_seq 0 ["id"; "postId"].
Proof.
  destruct (HandleFunc_declares_in_order "/users/{id}/posts/{postId}"
              (say "post") ["GET"] NewRouter)
    as (route & Hbuilt & _ & Hkey & Hvar & _).
  - vm_compute. discriminate.
  - exists route. split; [exact Hbuilt|]. split; [exact Hkey|].
    rewrite Hvar. reflexivity.
Defined.

Lemma forallb_false_elem {A} (f : A → bool) (l : list A) :
  forallb f l = false ↔ ∃ x, x ∈ l ∧ f x = false.
Proof.
  induction l as [|a l IH]; cbn [forallb].
  - split; [done|]. by intros (x & ?%elem_of_nil & _).
  - rewrite andb_false_iff, IH. split.
    + intros [Ha|(x & Hin & Hx)]; [exists a|exists x];
        (split; [|done]); [by left|by right].
    + intros (x & [->|Hin]%elem_of_cons & Hx); [by left|].
      right. by exists x.
Qed.

(** X23: the [methods] method of a route returns an error exactly when
    one of the methods is not, letter for letter, one of GET, POST, PUT
    and DELETE; with an error nothing is registered. *)
Theorem methods_error_iff_disallowed route ms σ :
  (∃ e, Route_methods route ms σ = (Done (Some e), σ))
  ↔ ∃ m, m ∈ ms ∧ m ∉ ["GET"; "POST"; "PUT"; "DELETE"].
Proof.
  assert (Hbad : forallb checkMethod ms = false
                 ↔ ∃ m, m ∈ ms ∧ m ∉ ["GET"; "POST"; "PUT"; "DELETE"]).
  { rewrite forallb_false_elem. split; intros (m & Hin & Hm); exists m;
      (split; [done|]).
    - intros Hok. apply (checkMethod_loop_spec m methods) in Hok.
      unfold checkMethod in Hm. congruence.
    - apply not_true_iff_false. intros Hok. apply Hm.
      by apply (checkMethod_loop_spec m methods). }
  rewrite <-Hbad. split.
  - intros [e He].
    destruct (forallb checkMethod ms) eqn:Hms; [|done].
    apply methods_err_None with (path := Route.Path route) in Hms.
    unfold Route_methods, bind in He. rewrite Hms in He.
    by destruct (if 0 <? _ then _ else _) as [[[]|msg] σ'].
  - intros Hms.
    destruct (methods_err_Some (Route.Path route) ms Hms) as [e He].
    exists e. unfold Route_methods. by rewrite He.
Qed.
